(** * OxideKit VS Code extension: language-server client lifecycle and
      binary discovery

    A shallow embedding of [src/extension.ts]: the module-level variables
    [client] and [devServerTerminal] become a [Store], the host (settings,
    workspace folders, file system, [PATH] lookup, platform) becomes a
    read-only [Env], and every call the extension makes to a collaborator is
    recorded, in program order, as an [Event].  Asynchronous functions are
    modelled sequentially: each [await] completes before the next statement
    runs, which is how the single-threaded event loop orders one invocation. *)

From stdpp Require Import base strings list gmap.
From Stdlib Require Import Ascii String.

Local Open Scope string_scope.
Local Open Scope list_scope.

(** ** JavaScript strings

    Strings are sequences of code units below 256.  [trim] removes the
    ECMAScript white space and line terminators of that range from both ends;
    [first_line] is [s.split('\n')[0]]. *)

Module JsString.

Definition is_white_space (c : ascii) : bool :=
  let n := nat_of_ascii c in
  (n =? 9)%nat || (n =? 10)%nat || (n =? 11)%nat || (n =? 12)%nat
  || (n =? 13)%nat || (n =? 32)%nat || (n =? 160)%nat.

Fixpoint trim_start (s : string) : string :=
  match s with
  | String c rest => if is_white_space c then trim_start rest else s
  | EmptyString => EmptyString
  end.

(** [trim_end] keeps a character when it is not white space or when
    something that is kept follows it. *)
Fixpoint trim_end (s : string) : string :=
  match s with
  | String c rest =>
      match trim_end rest with
      | EmptyString => if is_white_space c then EmptyString else String c EmptyString
      | kept => String c kept
      end
  | EmptyString => EmptyString
  end.

Definition trim (s : string) : string := trim_end (trim_start s).

Definition LF : ascii := "010"%char.
Definition CR : ascii := "013"%char.

Fixpoint first_line (s : string) : string :=
  match s with
  | String c rest => if Ascii.eqb c LF then EmptyString else String c (first_line rest)
  | EmptyString => EmptyString
  end.

(** Truthiness of a value of type [string | undefined]: the non-empty
    string it holds, if any. *)
Definition truthy (v : option string) : option string :=
  match v with
  | Some EmptyString => None
  | Some s => Some s
  | None => None
  end.

End JsString.

(** ** The host environment *)

Inductive TransportKind := stdio | ipc | pipe | socket.

Record Executable := {
  command : string;
  transport : TransportKind;
  options_env : option (gmap string string)
}.

Record ServerOptions := {
  run : Executable;
  debug : Executable
}.

Record DocumentFilter := {
  scheme : string;
  language : option string;
  pattern : option string
}.

Record LanguageClientOptions := {
  documentSelector : list DocumentFilter;
  synchronize_fileEvents : string;
  outputChannel : string
}.

(** The states of the spec's [ConnectionHandle]. *)
Inductive ConnectionState := Absent | Starting | Running | Stopping.

Record LanguageClient := {
  lc_id : string;
  lc_name : string;
  lc_serverOptions : ServerOptions;
  lc_clientOptions : LanguageClientOptions;
  lc_state : ConnectionState
}.

Record Terminal := { term_name : string }.

Inductive Disposable :=
| DisposeClient
| DisposeCommand (name : string).

(** What the extension reads from its host and never writes. *)
Record Env := {
  lsp_path : option string;               (* config.get<string>('lsp.path') *)
  workspaceFolders : option (list string);(* fsPath of each folder, or undefined *)
  extensionPath : string;                 (* context.extensionPath *)
  platform : string;                      (* process.platform *)
  process_env : gmap string string;       (* process.env *)
  path_join : list string -> string;      (* path.join *)
  fs_stat : string -> bool;               (* does workspace.fs.stat resolve? *)
  execSync : string -> option string;     (* stdout, or None when it throws *)
  debug_mode : bool;                      (* is the extension host debugging? *)
  peer_launches : Executable -> bool      (* can the binary be spawned? *)
}.

(** The two module-level variables and the context's subscriptions. *)
Record Store := {
  client : option LanguageClient;
  devServerTerminal : option Terminal;
  subscriptions : list Disposable
}.

Inductive Event :=
| ConsoleLog (msg : string)
| FsStat (path : string)
| ExecSyncCall (cmd : string)
| ShowWarningMessage (msg : string)
| ShowInformationMessage (msg : string)
| ShowErrorMessage (msg : string)
| CreateFileSystemWatcher (glob : string)
| CreateOutputChannel (name : string)
| NewLanguageClient (id name : string) (opts : ServerOptions)
| ClientStart
| ClientStop
| SpawnProcess (exe : Executable)
| ShutdownProcess
| RegisterCommand (name : string)
| RegisterTreeDataProvider (view : string)
| CreateTerminal (name : string)
| TerminalShow
| TerminalSendText (text : string)
| TerminalDispose.

Inductive Exn :=
| FileNotFound (path : string)
| ExecFailed (cmd : string)
| TypeError (msg : string).

(** ** Computations: a store, a trace of events, and exceptions *)

Inductive Outcome (A : Type) :=
| Returned (a : A)
| Thrown (e : Exn).
Arguments Returned {A} a.
Arguments Thrown {A} e.

Definition M (A : Type) : Type := Store -> Outcome A * Store * list Event.

Definition exec {A} (m : M A) (s : Store) : Outcome A * Store * list Event := m s.

#[global] Instance M_ret : MRet M := fun A a s => (Returned a, s, []).

#[global] Instance M_bind : MBind M := fun A B k m s =>
  match m s with
  | (Returned a, s1, ev1) =>
      match k a s1 with
      | (o, s2, ev2) => (o, s2, ev1 ++ ev2)
      end
  | (Thrown e, s1, ev1) => (Thrown e, s1, ev1)
  end.

Definition emit (e : Event) : M unit := fun s => (Returned tt, s, [e]).
Definition get_client : M (option LanguageClient) := fun s => (Returned (client s), s, []).
Definition get_devServerTerminal : M (option Terminal) := fun s =>
  (Returned (devServerTerminal s), s, []).

(** [try { body } catch { handler }] *)
Definition try_catch {A} (body : M A) (handler : Exn -> M A) : M A := fun s =>
  match body s with
  | (Thrown e, s1, ev1) =>
      match handler e s1 with
      | (o, s2, ev2) => (o, s2, ev1 ++ ev2)
      end
  | r => r
  end.

(** A loop body either falls through or executes [return v]. *)
Inductive Flow :=
| Continue
| Return (v : string).

(** ** Binary discovery and client start-up (lines 59-166) *)

Section Extension.

Variable env : Env.

(** [await vscode.workspace.fs.stat(vscode.Uri.file(p))]: resolves, or
    rejects when there is nothing at [p]. *)
Definition stat (p : string) : M unit := fun s =>
  if fs_stat env p
  then (Returned tt, s, [FsStat p])
  else (Thrown (FileNotFound p), s, [FsStat p]).

(** [execSync(cmd, { encoding: 'utf-8' })]: the standard output, or an
    exception (a non-zero exit status among others). *)
Definition execSyncM (cmd : string) : M string := fun s =>
  match execSync env cmd with
  | Some out => (Returned out, s, [ExecSyncCall cmd])
  | None => (Thrown (ExecFailed cmd), s, [ExecSyncCall cmd])
  end.

Definition localPaths (folder : string) : list string :=
  [ path_join env [folder; "target"; "release"; "oxide-lsp"];
    path_join env [folder; "target"; "debug"; "oxide-lsp"] ].

(** [for (const localPath of localPaths) { try { stat; return } catch {} }] *)
Fixpoint forLocalPaths (paths : list string) : M Flow :=
  match paths with
  | [] => mret Continue
  | localPath :: rest =>
      r ← try_catch (stat localPath;; mret (Return localPath))
                    (fun _ => mret Continue);
      match r with
      | Return v => mret (Return v)
      | Continue => forLocalPaths rest
      end
  end.

(** [for (const folder of workspaceFolders) { ... }] *)
Fixpoint forFolders (folders : list string) : M Flow :=
  match folders with
  | [] => mret Continue
  | folder :: rest =>
      r ← forLocalPaths (localPaths folder);
      match r with
      | Return v => mret (Return v)
      | Continue => forFolders rest
      end
  end.

Definition bundledPath : string :=
  path_join env [extensionPath env; "bin"; "oxide-lsp"].

Definition whichCommand : string :=
  if String.eqb (platform env) "win32" then "where" else "which".

Definition findOxideLsp : M (option string) :=
  r ← match workspaceFolders env with
      | Some folders => forFolders folders
      | None => mret Continue
      end;
  match r with
  | Return v => mret (Some v)
  | Continue =>
      r ← try_catch (stat bundledPath;; mret (Return bundledPath))
                    (fun _ => mret Continue);
      match r with
      | Return v => mret (Some v)
      | Continue =>
          r ← try_catch
                (result ← execSyncM (whichCommand ++ " oxide-lsp");
                 mret (Return (JsString.first_line (JsString.trim result))))
                (fun _ => mret Continue);
          match r with
          | Return v => mret (Some v)
          | Continue => mret None
          end
      end
  end.

(** Lines 64-70 of [startLspClient]: the configured path when it is
    truthy, the search otherwise. *)
Definition resolveServerPath : M (option string) :=
  let serverPath := lsp_path env in
  match JsString.truthy serverPath with
  | Some _ => mret serverPath
  | None => findOxideLsp
  end.

Definition serverOptionsFor (serverPath : string) : ServerOptions :=
  {| run := {| command := serverPath; transport := stdio; options_env := None |};
     debug := {| command := serverPath; transport := stdio;
                 options_env :=
                   Some (<["RUST_LOG" := "oxide_lsp=debug"]> (process_env env)) |} |}.

Definition fileFilter (language pattern : option string) : DocumentFilter :=
  {| scheme := "file"; language := language; pattern := pattern |}.

Definition clientOptions : LanguageClientOptions :=
  {| documentSelector :=
       [ fileFilter (Some "oui") None;
         fileFilter None (Some "**/oxide.toml");
         fileFilter None (Some "**/plugin.toml");
         fileFilter None (Some "**/theme.toml");
         fileFilter None (Some "**/typography.toml");
         fileFilter None (Some "**/fonts.toml") ];
     synchronize_fileEvents := "**/*.{oui,toml}";
     outputChannel := "OxideKit Language Server" |}.

Definition set_client (c : option LanguageClient) : M unit := fun s =>
  (Returned tt,
   {| client := c; devServerTerminal := devServerTerminal s;
      subscriptions := subscriptions s |}, []).

Definition set_devServerTerminal (t : option Terminal) : M unit := fun s =>
  (Returned tt,
   {| client := client s; devServerTerminal := t;
      subscriptions := subscriptions s |}, []).

Definition subscriptions_push (ds : list Disposable) : M unit := fun s =>
  (Returned tt,
   {| client := client s; devServerTerminal := devServerTerminal s;
      subscriptions := subscriptions s ++ ds |}, []).

Definition with_state (c : LanguageClient) (st : ConnectionState) : LanguageClient :=
  {| lc_id := lc_id c; lc_name := lc_name c;
     lc_serverOptions := lc_serverOptions c;
     lc_clientOptions := lc_clientOptions c; lc_state := st |}.

Definition launchExecutable (c : LanguageClient) : Executable :=
  if debug_mode env then debug (lc_serverOptions c) else run (lc_serverOptions c).

(** Modelled from the spec: the [LanguageClient] class comes from the
    vscode-languageclient package, which is not part of the sources.
    Following section 4.2, [start] takes an [Absent] connection through
    [Starting] to [Running] by spawning the binary; a launch failure is
    shown to the user and leaves the connection [Absent]; a connection
    that is not [Absent] is left as it is.  The call itself is recorded as
    [ClientStart], the spawn as [SpawnProcess]. *)
Definition lc_start (c : LanguageClient) : LanguageClient * list Event :=
  match lc_state c with
  | Absent =>
      if peer_launches env (launchExecutable c)
      then (with_state c Running, [ClientStart; SpawnProcess (launchExecutable c)])
      else (with_state c Absent,
            [ClientStart; SpawnProcess (launchExecutable c);
             ShowErrorMessage "Couldn't start client OxideKit Language Server"])
  | _ => (c, [ClientStart])
  end.

(** Modelled from the spec: [stop] takes a [Running] connection through
    [Stopping] to [Absent], releasing the process; on a connection that is
    not [Running] it does nothing.  The call itself is recorded as
    [ClientStop], the release as [ShutdownProcess]. *)
Definition lc_stop (c : LanguageClient) : LanguageClient * list Event :=
  match lc_state c with
  | Running => (with_state c Absent, [ClientStop; ShutdownProcess])
  | _ => (c, [ClientStop])
  end.

(** [client.start()] and [client.stop()]: the method is called on the
    object the module-level variable refers to at that moment. *)
Definition client_start : M unit := fun s =>
match client s with
| Some c =>
    let '(c', ev) := lc_start c in
    (Returned tt,
     {| client := Some c'; devServerTerminal := devServerTerminal s;
        subscriptions := subscriptions s |}, ev)
| None => (Thrown (TypeError "client is undefined"), s, [])
end.

Definition client_stop : M unit := fun s =>
match client s with
| Some c =>
    let '(c', ev) := lc_stop c in
    (Returned tt,
     {| client := Some c'; devServerTerminal := devServerTerminal s;
        subscriptions := subscriptions s |}, ev)
| None => (Thrown (TypeError "client is undefined"), s, [])
end.

Definition notFoundWarning : string :=
  "oxide-lsp not found. Some features will be unavailable. " ++
  "Install OxideKit CLI or set oxidekit.lsp.path in settings.".

(** Lines 72-119 of [startLspClient], from the resolved path on. *)
Definition startWith (serverPath : option string) : M unit :=
  match JsString.truthy serverPath with
  | None => emit (ShowWarningMessage notFoundWarning)
  | Some serverPath =>
      let serverOptions := serverOptionsFor serverPath in
      emit (CreateFileSystemWatcher (synchronize_fileEvents clientOptions));;
      emit (CreateOutputChannel (outputChannel clientOptions));;
      let c := {| lc_id := "oxidekit"; lc_name := "OxideKit Language Server";
                  lc_serverOptions := serverOptions;
                  lc_clientOptions := clientOptions; lc_state := Absent |} in
      emit (NewLanguageClient (lc_id c) (lc_name c) serverOptions);;
      set_client (Some c);;
      client_start;;
      subscriptions_push [DisposeClient]
  end.

Definition startLspClient : M unit :=
  serverPath ← resolveServerPath;
  startWith serverPath.

(** ** Commands and tree views (lines 168-242) *)

Definition registerCommand (name : string) : M Disposable :=
emit (RegisterCommand name);; mret (DisposeCommand name).

(** [context.subscriptions.push(registerCommand(a), registerCommand(b), ...)]:
    the arguments are evaluated left to right, then pushed. *)
Fixpoint registerAll (names : list string) : M (list Disposable) :=
match names with
| [] => mret []
| name :: rest =>
    d ← registerCommand name;
    ds ← registerAll rest;
    mret (d :: ds)
end.

Definition pushCommands (names : list string) : M unit :=
ds ← registerAll names;
subscriptions_push ds.

Definition registerCommands : M unit :=
pushCommands ["oxidekit.startDevServer"; "oxidekit.stopDevServer"];;
pushCommands ["oxidekit.buildDesktop"; "oxidekit.buildStatic"];;
pushCommands ["oxidekit.validateProject"; "oxidekit.addPlugin"; "oxidekit.newPlugin"];;
pushCommands ["oxidekit.i18nCheck"];;
pushCommands ["oxidekit.figmaImport"];;
pushCommands ["oxidekit.restartLsp"];;
pushCommands ["oxidekit.showPreview"; "oxidekit.showTokenExplorer"];;
pushCommands ["oxidekit.createComponent"; "oxidekit.extractComponent";
              "oxidekit.wrapWithContainer"; "oxidekit.wrapWithColumn";
              "oxidekit.wrapWithRow"];;
pushCommands ["oxidekit.showMigrationGuide"].

Definition registerTreeViews : M unit :=
emit (RegisterTreeDataProvider "oxidekit-components");;
emit (RegisterTreeDataProvider "oxidekit-tokens");;
emit (RegisterTreeDataProvider "oxidekit-i18n").

(** ** Activation and deactivation (lines 24-57) *)

Definition activate : M unit :=
emit (ConsoleLog "OxideKit extension activating...");;
startLspClient;;
registerCommands;;
registerTreeViews;;
emit (ConsoleLog "OxideKit extension activated").

(** Lines 53-56 of [deactivate]: [if (client) { await client.stop(); }],
    the spec's [stop()]. *)
Definition stopLspClient : M unit :=
handle ← get_client;
match handle with
| Some _ => client_stop
| None => mret tt
end.

Definition deactivate : M unit :=
emit (ConsoleLog "OxideKit extension deactivating...");;
terminal ← get_devServerTerminal;
match terminal with
| Some _ => emit TerminalDispose
| None => mret tt
end;;
stopLspClient.

(** ** Command implementations (lines 246-269 and 327-333) *)

Definition startDevServer : M unit :=
terminal ← get_devServerTerminal;
match terminal with
| Some _ => emit (ShowInformationMessage "Dev server is already running")
| None =>
    emit (CreateTerminal "OxideKit Dev");;
    set_devServerTerminal (Some {| term_name := "OxideKit Dev" |});;
    emit TerminalShow;;
    emit (TerminalSendText "oxide dev");;
    emit (ShowInformationMessage "Starting OxideKit dev server...")
end.

Definition stopDevServer : M unit :=
terminal ← get_devServerTerminal;
match terminal with
| None => emit (ShowInformationMessage "Dev server is not running")
| Some _ =>
    emit TerminalDispose;;
    set_devServerTerminal None;;
    emit (ShowInformationMessage "Dev server stopped")
end.

Definition restartLsp : M unit :=
handle ← get_client;
match handle with
| Some _ =>
    client_stop;;
    client_start;;
    emit (ShowInformationMessage "OxideKit language server restarted")
| None => mret tt
end.

(** ** The host driving the extension

    The host calls [activate], [deactivate] and the command handlers one
    after the other; an exception ends the handler that raised it. *)

Inductive Command :=
| Activate
| Deactivate
| RestartLsp
| StartDevServer
| StopDevServer.

Definition handler (c : Command) : M unit :=
match c with
| Activate => activate
| Deactivate => deactivate
| RestartLsp => restartLsp
| StartDevServer => startDevServer
| StopDevServer => stopDevServer
end.

Fixpoint runCommands (cmds : list Command) (s : Store) : Store * list Event :=
match cmds with
| [] => (s, [])
| c :: rest =>
    match exec (handler c) s with
    | (_, s1, ev1) =>
        match runCommands rest s1 with
        | (s2, ev2) => (s2, ev1 ++ ev2)
        end
    end
end.

End Extension.

(** ** The search as the spec words it

    Section 4.1: an ordered, finite list of candidates, first match wins, no
    further candidate is checked.  [searchOrder] is the list of paths in the
    order of the spec's tiers 2 and 3; [firstExisting] and [probed] are the
    first-success-wins combinator over it. *)

Section SearchSpec.

Variable env : Env.

Definition searchOrder : list string :=
  match workspaceFolders env with
  | Some roots => flat_map (localPaths env) roots
  | None => []
  end ++ [bundledPath env].

Definition firstExisting (paths : list string) : option string :=
  List.find (fs_stat env) paths.

(** The candidates that get statted: all up to and including the first hit. *)
Fixpoint probed (paths : list string) : list string :=
  match paths with
  | [] => []
  | p :: rest => p :: (if fs_stat env p then [] else probed rest)
  end.

Definition lookupCommand : string := whichCommand env ++ " oxide-lsp".

(** Tier 4: the [PATH] lookup. *)
Definition pathLookup : option string :=
  match execSync env lookupCommand with
  | Some out => Some (JsString.first_line (JsString.trim out))
  | None => None
  end.

Definition flowOf (r : option string) : Flow :=
  match r with
  | Some v => Return v
  | None => Continue
  end.

End SearchSpec.

(** The connection state the spec attributes to the process-wide handle. *)
Definition handleState (s : Store) : ConnectionState :=
  match client s with
  | Some c => lc_state c
  | None => Absent
  end.

(** ** Classifying events *)

(** Probes of the file system and of the [PATH]. *)
Definition is_probe (e : Event) : bool :=
  match e with
  | FsStat _ | ExecSyncCall _ => true
  | _ => false
  end.

(** The commands and tree views that activation registers, in order. *)
Definition commandNames : list string :=
  [ "oxidekit.startDevServer"; "oxidekit.stopDevServer";
    "oxidekit.buildDesktop"; "oxidekit.buildStatic";
    "oxidekit.validateProject"; "oxidekit.addPlugin"; "oxidekit.newPlugin";
    "oxidekit.i18nCheck";
    "oxidekit.figmaImport";
    "oxidekit.restartLsp";
    "oxidekit.showPreview"; "oxidekit.showTokenExplorer";
    "oxidekit.createComponent"; "oxidekit.extractComponent";
    "oxidekit.wrapWithContainer"; "oxidekit.wrapWithColumn"; "oxidekit.wrapWithRow";
    "oxidekit.showMigrationGuide" ].

Definition treeViews : list string :=
  [ "oxidekit-components"; "oxidekit-tokens"; "oxidekit-i18n" ].

(** A computation keeps the handle when it cannot turn a defined [client]
    into [undefined], whether it returns or throws. *)
Definition keeps_handle {A} (m : M A) : Prop :=
  forall s, is_Some (client s) -> is_Some (client (snd (fst (exec m s)))).

(** ** Sample hosts *)

(** [path.join] on POSIX, for segments that need no normalisation. *)
Definition posix_join (segs : list string) : string := String.concat "/" segs.

Definition emptyStore : Store :=
  {| client := None; devServerTerminal := None; subscriptions := [] |}.

(** A Linux host: one workspace root [/proj] with a debug build only,
    nothing configured, nothing bundled, nothing on the [PATH]. *)
Definition hostDebugOnly : Env :=
  {| lsp_path := None;
     workspaceFolders := Some ["/proj"];
     extensionPath := "/ext";
     platform := "linux";
     process_env := ∅;
     path_join := posix_join;
     fs_stat := fun p => String.eqb p "/proj/target/debug/oxide-lsp";
     execSync := fun _ => None;
     debug_mode := false;
     peer_launches := fun _ => true |}.

(** The same host with a second root, no build output at all, and the
    setting left at its default, the empty string. *)
Definition hostNothing : Env :=
  {| lsp_path := Some "";
     workspaceFolders := Some ["/proj"; "/lib"];
     extensionPath := "/ext";
     platform := "linux";
     process_env := ∅;
     path_join := posix_join;
     fs_stat := fun _ => false;
     execSync := fun _ => None;
     debug_mode := false;
     peer_launches := fun _ => true |}.

(** A host whose settings name a path that does not exist, while a release
    build does. *)
Definition hostConfigured : Env :=
  {| lsp_path := Some "/opt/missing/oxide-lsp";
     workspaceFolders := Some ["/proj"];
     extensionPath := "/ext";
     platform := "linux";
     process_env := ∅;
     path_join := posix_join;
     fs_stat := fun p => String.eqb p "/proj/target/release/oxide-lsp";
     execSync := fun _ => None;
     debug_mode := false;
     peer_launches := fun _ => true |}.

Definition CRLF : string := String JsString.CR (String JsString.LF EmptyString).

(** What [where oxide-lsp] prints on Windows when two files match: one path
    per line, each line ended by CR LF. *)
Definition whereOutput : string :=
  "C:\bin\oxide-lsp.exe" +:+ CRLF +:+ "C:\tools\oxide-lsp.cmd" +:+ CRLF.

Definition hostWindows : Env :=
  {| lsp_path := None;
     workspaceFolders := None;
     extensionPath := "C:\ext";
     platform := "win32";
     process_env := ∅;
     path_join := String.concat (String (ascii_of_nat 92) EmptyString);
     fs_stat := fun _ => false;
     execSync := fun cmd =>
       if String.eqb cmd "where oxide-lsp" then Some whereOutput else None;
     debug_mode := false;
     peer_launches := fun _ => true |}.

(** The client that [startLspClient] leaves behind on [hostDebugOnly], and
    the store after activation there. *)
Definition clientConnected : LanguageClient :=
  {| lc_id := "oxidekit"; lc_name := "OxideKit Language Server";
     lc_serverOptions := serverOptionsFor hostDebugOnly "/proj/target/debug/oxide-lsp";
     lc_clientOptions := clientOptions; lc_state := Running |}.

Definition storeConnected : Store :=
  {| client := Some clientConnected; devServerTerminal := None;
     subscriptions := DisposeClient :: map DisposeCommand commandNames |}.

(** ** More of JavaScript's strings: [split('\n')] and [join] *)

Module JsLines.

Definition nl : string := String JsString.LF EmptyString.
Definition dquote : string := String (ascii_of_nat 34) EmptyString.

(** [s.split('\n')]: never empty, one more element than there are LFs. *)
Fixpoint split_lines (s : string) : list string :=
  match s with
  | EmptyString => [EmptyString]
  | String c rest =>
      if Ascii.eqb c JsString.LF then EmptyString :: split_lines rest
      else match split_lines rest with
           | l :: ls => String c l :: ls
           | [] => [String c EmptyString]
           end
  end.

(** [lines.join(sep)] *)
Definition join (sep : string) (lines : list string) : string :=
  String.concat sep lines.

Fixpoint has_LF (s : string) : bool :=
  match s with
  | EmptyString => false
  | String c rest => Ascii.eqb c JsString.LF || has_LF rest
  end.

Fixpoint all_white_space (s : string) : bool :=
  match s with
  | EmptyString => true
  | String c rest => JsString.is_white_space c && all_white_space rest
  end.

Definition starts_with_white_space (s : string) : bool :=
  match s with
  | EmptyString => false
  | String c _ => JsString.is_white_space c
  end.

End JsLines.

(** ** Commands that only talk to the editor (lines 289-313 and 353-421)

    These handlers read neither [client] nor [devServerTerminal].  What the
    user and the editor supply comes in a [UiHost]; what the handler does is
    the list of [UiAction]s, in program order. *)

Record TextEditor := {
  languageId : string;            (* editor.document.languageId *)
  selectedText : string           (* editor.document.getText(editor.selection) *)
}.

(** [editor.selection.isEmpty]: start and end coincide, so no text is
    selected. *)
Definition selection_isEmpty (editor : TextEditor) : bool :=
  match selectedText editor with
  | EmptyString => true
  | _ => false
  end.

Record UiHost := {
  activeTextEditor : option TextEditor;   (* vscode.window.activeTextEditor *)
  inputBoxAnswer : option string;         (* what showInputBox resolves to *)
  writeFile_ok : string -> bool;          (* does workspace.fs.writeFile resolve? *)
  showTextDocument_ok : string -> bool    (* does window.showTextDocument resolve? *)
}.

Inductive UiAction :=
| UiCreateTerminal (name : string)
| UiTerminalShow
| UiTerminalSendText (text : string)
| UiShowInputBox (prompt placeHolder : string)
| UiShowErrorMessage (msg : string)
| UiShowWarningMessage (msg : string)
| UiShowInformationMessage (msg : string)
| UiWriteFile (path content : string)
| UiShowTextDocument (path : string)
| UiReplaceSelection (text : string).

Inductive UiExn :=
| UiTypeError (msg : string)
| WriteFailed (path : string)
| OpenFailed (path : string).

Inductive UiOutcome (A : Type) :=
| Done (a : A)
| Raised (e : UiExn).
Arguments Done {A} a.
Arguments Raised {A} e.

Definition Ui (A : Type) : Type := UiOutcome A * list UiAction.

#[global] Instance Ui_ret : MRet Ui := fun A a => (Done a, []).

#[global] Instance Ui_bind : MBind Ui := fun A B k m =>
  match m with
  | (Done a, ev1) =>
      match k a with
      | (o, ev2) => (o, ev1 ++ ev2)
      end
  | (Raised e, ev1) => (Raised e, ev1)
  end.

Definition act (a : UiAction) : Ui unit := (Done tt, [a]).
Definition raise {A} (e : UiExn) : Ui A := (Raised e, []).

Section UiCommands.

Variable env : Env.
Variable host : UiHost.

(** [await vscode.window.showInputBox({ prompt, placeHolder })] *)
Definition showInputBox (prompt placeHolder : string) : Ui (option string) :=
  act (UiShowInputBox prompt placeHolder);; mret (inputBoxAnswer host).

(** [createTerminal(name); terminal.show(); terminal.sendText(text)] *)
Definition inNewTerminal (name text : string) : Ui unit :=
  act (UiCreateTerminal name);;
  act UiTerminalShow;;
  act (UiTerminalSendText text).


Definition addPlugin : Ui unit :=
  pluginName ← showInputBox "Enter plugin name to add" "e.g., @oxidekit/charts";
  match JsString.truthy pluginName with
  | Some pluginName => inNewTerminal "OxideKit" ("oxide add " +:+ pluginName)
  | None => mret tt
  end.

Definition newPlugin : Ui unit :=
  pluginName ← showInputBox "Enter name for new plugin" "e.g., my-custom-components";
  match JsString.truthy pluginName with
  | Some pluginName => inNewTerminal "OxideKit" ("oxide plugin new " +:+ pluginName)
  | None => mret tt
  end.

(** The template of lines 370-381. *)
Definition componentContent (name : string) : string :=
  JsLines.join JsLines.nl
    [ "// " +:+ name +:+ " component";
      "app " +:+ name +:+ " {";
      "    Column {";
      "        align: center";
      "        justify: center";
      "";
      "        Text {";
      "            content: " +:+ JsLines.dquote +:+ name +:+ " component" +:+ JsLines.dquote;
      "        }";
      "    }";
      "}";
      "" ].

Definition componentPathFor (root name : string) : string :=
  let componentsDir := path_join env [root; "src"; "components"] in
  path_join env [componentsDir; name +:+ ".oui"].

Definition writeFile (path content : string) : Ui unit :=
  if writeFile_ok host path
  then (Done tt, [UiWriteFile path content])
  else (Raised (WriteFailed path), [UiWriteFile path content]).

Definition showTextDocument (path : string) : Ui unit :=
  if showTextDocument_ok host path
  then (Done tt, [UiShowTextDocument path])
  else (Raised (OpenFailed path), [UiShowTextDocument path]).

(** [componentName || await showInputBox(...)], when it is truthy. *)
Definition chosenName (componentName : option string) : option string :=
  match JsString.truthy componentName with
  | Some name => Some name
  | None => JsString.truthy (inputBoxAnswer host)
  end.

Definition componentPrompt (componentName : option string) : list UiAction :=
  match JsString.truthy componentName with
  | Some _ => []
  | None => [UiShowInputBox "Enter component name" "e.g., MyButton"]
  end.

Definition createComponent (componentName : option string) : Ui unit :=
  name ← match JsString.truthy componentName with
         | Some name => mret (Some name)
         | None => showInputBox "Enter component name" "e.g., MyButton"
         end;
  match JsString.truthy name with
  | None => mret tt
  | Some name =>
      match workspaceFolders env with
      | None => act (UiShowErrorMessage "No workspace folder open")
      | Some [] =>
          raise (UiTypeError "Cannot read properties of undefined (reading 'uri')")
      | Some (root :: _) =>
          let componentPath := componentPathFor root name in
          let content := componentContent name in
          writeFile componentPath content;;
          showTextDocument componentPath
      end
  end.

Definition extractComponent : Ui unit :=
  match activeTextEditor host with
  | None => mret tt
  | Some editor =>
      if selection_isEmpty editor
      then act (UiShowWarningMessage "Select the component code to extract")
      else
        componentName ← showInputBox "Enter name for extracted component"
                                     "e.g., MyExtractedComponent";
        match JsString.truthy componentName with
        | None => mret tt
        | Some componentName =>
            act (UiShowInformationMessage
                   ("Extract to " +:+ componentName +:+ " - not yet implemented"))
        end
  end.

(** The template of line 416. *)
Definition wrapped (wrapper text : string) : string :=
  wrapper +:+ " {" +:+ JsLines.nl +:+ "    "
  +:+ JsLines.join (JsLines.nl +:+ "    ") (JsLines.split_lines text)
  +:+ JsLines.nl +:+ "}".

Definition wrapWith (wrapper : string) : Ui unit :=
  match activeTextEditor host with
  | None => mret tt
  | Some editor =>
      if negb (String.eqb (languageId editor) "oui") then mret tt
      else act (UiReplaceSelection (wrapped wrapper (selectedText editor)))
  end.

End UiCommands.

(** Actions that change a file or a document. *)
Definition is_write (a : UiAction) : bool :=
  match a with
  | UiWriteFile _ _ | UiShowTextDocument _ | UiReplaceSelection _ => true
  | _ => false
  end.

(** ** Tree view providers (lines 476-545) *)

Inductive TreeItemCollapsibleState := CollapsibleNone | Collapsed | Expanded.

Record TreeItem := {
  label : string;
  collapsibleState : TreeItemCollapsibleState;
  iconPath : string                      (* the id of the ThemeIcon *)
}.

Definition ComponentItem (label : string) (st : TreeItemCollapsibleState) : TreeItem :=
  {| label := label; collapsibleState := st; iconPath := "symbol-class" |}.

Definition TokenItem (label : string) (st : TreeItemCollapsibleState) : TreeItem :=
  {| label := label; collapsibleState := st; iconPath := "symbol-color" |}.

Definition I18nItem (label : string) (st : TreeItemCollapsibleState) : TreeItem :=
  {| label := label; collapsibleState := st; iconPath := "globe" |}.

Record TreeDataProvider := {
  getTreeItem : TreeItem -> TreeItem;
  getChildren : option TreeItem -> list TreeItem
}.

Definition ComponentsTreeProvider : TreeDataProvider :=
  {| getTreeItem := fun element => element;
     getChildren := fun _element => [ComponentItem "Built-in" Collapsed] |}.

Definition TokensTreeProvider : TreeDataProvider :=
  {| getTreeItem := fun element => element;
     getChildren := fun _element =>
       [ TokenItem "Colors" Collapsed;
         TokenItem "Spacing" Collapsed;
         TokenItem "Radius" Collapsed ] |}.

Definition I18nTreeProvider : TreeDataProvider :=
  {| getTreeItem := fun element => element;
     getChildren := fun _element => [I18nItem "en (English)" CollapsibleNone] |}.

(** How the editor walks a provider: the roots are [getChildren(undefined)],
    and an item can be expanded, which asks for its children, unless its
    state is [None]. *)
Definition expandable (item : TreeItem) : bool :=
  match collapsibleState item with
  | CollapsibleNone => false
  | _ => true
  end.

Fixpoint treeLevel (p : TreeDataProvider) (depth : nat) : list TreeItem :=
  match depth with
  | O => getChildren p None
  | S d =>
      flat_map (fun item => if expandable item then getChildren p (Some item) else [])
               (treeLevel p d)
  end.

(** ** Counting events *)

Definition is_terminal_event (e : Event) : bool :=
  match e with
  | CreateTerminal _ | TerminalShow | TerminalSendText _ | TerminalDispose => true
  | _ => false
  end.

Definition is_client_event (e : Event) : bool :=
  match e with
  | NewLanguageClient _ _ _ | ClientStart | ClientStop
  | SpawnProcess _ | ShutdownProcess => true
  | _ => false
  end.

Definition is_create_terminal (e : Event) : bool :=
  match e with
  | CreateTerminal _ => true
  | _ => false
  end.

Definition is_dispose_terminal (e : Event) : bool :=
  match e with
  | TerminalDispose => true
  | _ => false
  end.

Definition is_spawn (e : Event) : bool :=
  match e with
  | SpawnProcess _ => true
  | _ => false
  end.

Definition count_events (f : Event -> bool) (ev : list Event) : nat :=
  List.length (List.filter f ev).

(** One when the module-level variable holds a terminal, zero otherwise. *)
Definition terminalHeld (s : Store) : nat :=
  match devServerTerminal s with
  | Some _ => 1
  | None => 0
  end.


(** The client that line 112 constructs for a resolved path. *)
Definition freshClient (env : Env) (serverPath : string) : LanguageClient :=
  {| lc_id := "oxidekit"; lc_name := "OxideKit Language Server";
     lc_serverOptions := serverOptionsFor env serverPath;
     lc_clientOptions := clientOptions; lc_state := Absent |}.

(** A computation that leaves [devServerTerminal] alone and makes no call on
    a terminal. *)
Definition terminal_neutral {A} (m : M A) : Prop :=
  forall s,
    devServerTerminal (snd (fst (exec m s))) = devServerTerminal s /\
    Forall (fun e => is_terminal_event e = false) (snd (exec m s)).

(** A Linux host with nothing built or bundled and the binary on the [PATH]. *)
Definition hostOnPath : Env :=
  {| lsp_path := None;
     workspaceFolders := Some ["/proj"];
     extensionPath := "/ext";
     platform := "linux";
     process_env := ∅;
     path_join := posix_join;
     fs_stat := fun _ => false;
     execSync := fun cmd =>
       if String.eqb cmd "which oxide-lsp"
       then Some ("/usr/local/bin/oxide-lsp" +:+ JsLines.nl)
       else None;
     debug_mode := false;
     peer_launches := fun _ => true |}.

(** The same host when the lookup command prints nothing but a line end. *)
Definition hostBlankLookup : Env :=
  {| lsp_path := None;
     workspaceFolders := Some ["/proj"];
     extensionPath := "/ext";
     platform := "linux";
     process_env := ∅;
     path_join := posix_join;
     fs_stat := fun _ => false;
     execSync := fun _ => Some JsLines.nl;
     debug_mode := false;
     peer_launches := fun _ => true |}.

(** A host whose settings name the server and where it cannot be spawned. *)
Definition hostCannotLaunch : Env :=
  {| lsp_path := Some "/opt/oxide/oxide-lsp";
     workspaceFolders := None;
     extensionPath := "/ext";
     platform := "linux";
     process_env := ∅;
     path_join := posix_join;
     fs_stat := fun _ => false;
     execSync := fun _ => None;
     debug_mode := true;
     peer_launches := fun _ => false |}.

Definition storeWithTerminal : Store :=
  {| client := None;
     devServerTerminal := Some {| term_name := "OxideKit Dev" |};
     subscriptions := [] |}.

(** An editor on an [.oui] document with three lines selected, the user
    answering [Card] to any prompt. *)
Definition uiHostOui : UiHost :=
  {| activeTextEditor :=
       Some {| languageId := "oui";
               selectedText := "Text {" +:+ JsLines.nl +:+ "  x" +:+ JsLines.nl +:+ "}" |};
     inputBoxAnswer := Some "Card";
     writeFile_ok := fun _ => true;
     showTextDocument_ok := fun _ => true |}.

(** No editor, and the user dismisses every prompt. *)
Definition uiHostIdle : UiHost :=
  {| activeTextEditor := None;
     inputBoxAnswer := None;
     writeFile_ok := fun _ => true;
     showTextDocument_ok := fun _ => true |}.

(** * Proofs *)

Lemma exec_bind {A B} (m : M A) (k : A -> M B) (s : Store) :
  exec (m ≫= k) s =
  match exec m s with
  | (Returned a, s1, ev1) =>
      match exec (k a) s1 with
      | (o, s2, ev2) => (o, s2, ev1 ++ ev2)
      end
  | (Thrown e, s1, ev1) => (Thrown e, s1, ev1)
  end.
Proof. reflexivity. Qed.

Lemma exec_ret {A} (a : A) (s : Store) : exec (mret a) s = (Returned a, s, []).
Proof. reflexivity. Qed.

Section SearchProofs.

Variable env : Env.

Lemma firstExisting_app (a b : list string) :
  firstExisting env (a ++ b) =
  match firstExisting env a with
  | Some p => Some p
  | None => firstExisting env b
  end.
Proof.
  unfold firstExisting. induction a as [|p a IH]; simpl; [reflexivity|].
  destruct (fs_stat env p); [reflexivity | exact IH].
Qed.

Lemma probed_app (a b : list string) :
  probed env (a ++ b) =
  match firstExisting env a with
  | Some _ => probed env a
  | None => a ++ probed env b
  end.
Proof.
  unfold firstExisting. induction a as [|p a IH]; simpl; [reflexivity|].
  destruct (fs_stat env p); [reflexivity|].
  rewrite IH. destruct (find (fs_stat env) a); reflexivity.
Qed.

Lemma probed_none (paths : list string) :
  firstExisting env paths = None -> probed env paths = paths.
Proof.
  unfold firstExisting. induction paths as [|p rest IH]; simpl; [reflexivity|].
  destruct (fs_stat env p); [discriminate|]. intros H. rewrite (IH H). reflexivity.
Qed.

Lemma firstExisting_none (paths : list string) :
  Forall (fun q => fs_stat env q = false) paths ->
  firstExisting env paths = None /\ probed env paths = paths.
Proof.
  unfold firstExisting. induction 1 as [|q l Hq _ [IH1 IH2]]; simpl; [tauto|].
  rewrite Hq, IH1, IH2. tauto.
Qed.

Lemma firstExisting_split (l1 l2 : list string) (p : string) :
  Forall (fun q => fs_stat env q = false) l1 ->
  fs_stat env p = true ->
  firstExisting env (l1 ++ p :: l2) = Some p /\
  probed env (l1 ++ p :: l2) = l1 ++ [p].
Proof.
  intros H1 Hp. destruct (firstExisting_none l1 H1) as [Hn Hpr].
  rewrite firstExisting_app, probed_app, Hn. unfold firstExisting. simpl.
  rewrite Hp. tauto.
Qed.

(** The inner loop is the first-success-wins combinator. *)
Lemma forLocalPaths_spec (paths : list string) (s : Store) :
  exec (forLocalPaths env paths) s =
  (Returned (flowOf (firstExisting env paths)), s, map FsStat (probed env paths)).
Proof.
  unfold firstExisting. induction paths as [|p rest IH]; [reflexivity|].
  cbn [forLocalPaths]. rewrite exec_bind.
  unfold try_catch, exec at 1, stat. simpl.
  destruct (fs_stat env p) eqn:Hp; simpl.
  - reflexivity.
  - rewrite IH. reflexivity.
Qed.

(** The nested loops visit the concatenation of the per-root arrays. *)
Lemma forFolders_spec (folders : list string) (s : Store) :
  exec (forFolders env folders) s =
  exec (forLocalPaths env (flat_map (localPaths env) folders)) s.
Proof.
  induction folders as [|f rest IH]; [reflexivity|].
  cbn [forFolders flat_map]. rewrite exec_bind.
  rewrite forLocalPaths_spec in IH. rewrite !forLocalPaths_spec.
  rewrite firstExisting_app, probed_app.
  generalize (localPaths env f) as lp; intro lp.
  destruct (firstExisting env lp) as [v|] eqn:Hlp; cbn [flowOf].
  - rewrite exec_ret, app_nil_r. reflexivity.
  - rewrite IH, map_app, (probed_none lp Hlp). reflexivity.
Qed.

(** [findOxideLsp] refines the spec's search: the first existing candidate of
    [searchOrder], statting exactly the candidates up to it, and the [PATH]
    lookup only when none exists.  It always returns and leaves the store
    alone. *)
Lemma findOxideLsp_spec (s : Store) :
  exec (findOxideLsp env) s =
  match firstExisting env (searchOrder env) with
  | Some p => (Returned (Some p), s, map FsStat (probed env (searchOrder env)))
  | None =>
      (Returned (pathLookup env), s,
       map FsStat (searchOrder env) ++ [ExecSyncCall (lookupCommand env)])
  end.
Proof.
  unfold findOxideLsp, searchOrder. rewrite exec_bind.
  assert (Hws : exec (match workspaceFolders env with
                      | Some folders => forFolders env folders
                      | None => mret Continue
                      end) s =
                exec (forLocalPaths env
                        (match workspaceFolders env with
                         | Some roots => flat_map (localPaths env) roots
                         | None => []
                         end)) s).
  { destruct (workspaceFolders env); [apply forFolders_spec | reflexivity]. }
  rewrite Hws, forLocalPaths_spec. clear Hws.
  set (ws := match workspaceFolders env with
             | Some roots => flat_map (localPaths env) roots
             | None => []
             end).
  rewrite firstExisting_app, probed_app.
  destruct (firstExisting env ws) as [v|] eqn:Hws; simpl.
  - rewrite app_nil_r. reflexivity.
  - rewrite (probed_none ws Hws). rewrite exec_bind. unfold try_catch, exec at 1, stat, firstExisting. simpl.
    destruct (fs_stat env (bundledPath env)) eqn:Hb; simpl.
    + rewrite map_app. reflexivity.
    + unfold pathLookup, lookupCommand, execSyncM, exec, mbind, M_bind, mret, M_ret.
      rewrite map_app. simpl.
      destruct (execSync env (whichCommand env ++ " oxide-lsp")); simpl;
        rewrite <- app_assoc; reflexivity.
Qed.

End SearchProofs.

(** ** Binary Resolver *)

Lemma truthy_nonempty (p : string) : p <> "" -> JsString.truthy (Some p) = Some p.
Proof. destruct p; [congruence | reflexivity]. Qed.

Lemma resolveServerPath_unconfigured (env : Env) (s : Store) :
  JsString.truthy (lsp_path env) = None ->
  exec (resolveServerPath env) s = exec (findOxideLsp env) s.
Proof. unfold resolveServerPath. intros ->. reflexivity. Qed.

(** The search never throws and never touches the store. *)
Lemma findOxideLsp_returns (env : Env) (s : Store) :
  exists r ev, exec (findOxideLsp env) s = (Returned r, s, ev).
Proof.
  rewrite findOxideLsp_spec.
  destruct (firstExisting env (searchOrder env)); eauto.
Qed.

Lemma resolveServerPath_returns (env : Env) (s : Store) :
  exists r ev, exec (resolveServerPath env) s = (Returned r, s, ev).
Proof.
  unfold resolveServerPath.
  destruct (JsString.truthy (lsp_path env)); [eauto | apply findOxideLsp_returns].
Qed.

(** The lookup command is [where] on Windows and [which] elsewhere. *)
Lemma lookupCommand_platform (env : Env) :
  lookupCommand env =
  if String.eqb (platform env) "win32" then "where oxide-lsp" else "which oxide-lsp".
Proof.
  unfold lookupCommand, whichCommand.
  destruct (String.eqb (platform env) "win32"); reflexivity.
Qed.

(** A lookup command that fails is "not found". *)
Lemma pathLookup_failed (env : Env) :
  execSync env (lookupCommand env) = None -> pathLookup env = None.
Proof. unfold pathLookup. intros ->. reflexivity. Qed.

(** C1: the candidates are tried in the order release then debug within a
    root, roots in their order, then the bundled binary, then the [PATH]
    lookup; the first candidate that exists is returned and nothing after it
    is checked.  In particular a root with a debug build and no release
    build, with nothing configured, resolves to the debug path. *)
Theorem findOxideLsp_first_match (env : Env) (s : Store) :
  (forall roots, workspaceFolders env = Some roots ->
     searchOrder env =
     flat_map (fun root =>
                 [ path_join env [root; "target"; "release"; "oxide-lsp"];
                   path_join env [root; "target"; "debug"; "oxide-lsp"] ]) roots
     ++ [path_join env [extensionPath env; "bin"; "oxide-lsp"]]) /\
  (forall l1 p l2,
     searchOrder env = l1 ++ p :: l2 ->
     Forall (fun q => fs_stat env q = false) l1 ->
     fs_stat env p = true ->
     exec (findOxideLsp env) s = (Returned (Some p), s, map FsStat (l1 ++ [p]))) /\
  (Forall (fun q => fs_stat env q = false) (searchOrder env) ->
     exec (findOxideLsp env) s =
     (Returned (pathLookup env), s,
      map FsStat (searchOrder env) ++ [ExecSyncCall (lookupCommand env)])) /\
  (forall root rest,
     workspaceFolders env = Some (root :: rest) ->
     JsString.truthy (lsp_path env) = None ->
     fs_stat env (path_join env [root; "target"; "release"; "oxide-lsp"]) = false ->
     fs_stat env (path_join env [root; "target"; "debug"; "oxide-lsp"]) = true ->
     exec (resolveServerPath env) s =
     (Returned (Some (path_join env [root; "target"; "debug"; "oxide-lsp"])), s,
      [ FsStat (path_join env [root; "target"; "release"; "oxide-lsp"]);
        FsStat (path_join env [root; "target"; "debug"; "oxide-lsp"]) ])).
Proof.
  assert (Hhit : forall l1 p l2,
     searchOrder env = l1 ++ p :: l2 ->
     Forall (fun q => fs_stat env q = false) l1 ->
     fs_stat env p = true ->
     exec (findOxideLsp env) s = (Returned (Some p), s, map FsStat (l1 ++ [p]))).
  { intros l1 p l2 Hsplit Hl1 Hp. rewrite findOxideLsp_spec, Hsplit.
    destruct (firstExisting_split env l1 l2 p Hl1 Hp) as [-> ->]. reflexivity. }
  repeat split.
  - intros roots Hroots. unfold searchOrder. rewrite Hroots. reflexivity.
  - exact Hhit.
  - intros Hnone. rewrite findOxideLsp_spec.
    destruct (firstExisting_none env _ Hnone) as [-> _]. reflexivity.
  - intros root rest Hroots Hcfg Hrel Hdbg.
    rewrite (resolveServerPath_unconfigured env s Hcfg).
    apply (Hhit [path_join env [root; "target"; "release"; "oxide-lsp"]] _
             (flat_map (localPaths env) rest ++ [bundledPath env])).
    + unfold searchOrder. rewrite Hroots. reflexivity.
    + repeat constructor. exact Hrel.
    + exact Hdbg.
Qed.

(** The scenario of the spec: [/proj] holds a debug build only. *)
Lemma findOxideLsp_first_match_witness :
  exec (resolveServerPath hostDebugOnly) emptyStore =
  (Returned (Some "/proj/target/debug/oxide-lsp"), emptyStore,
   [ FsStat "/proj/target/release/oxide-lsp";
     FsStat "/proj/target/debug/oxide-lsp" ]).
Proof.
  destruct (findOxideLsp_first_match hostDebugOnly emptyStore) as (_ & _ & _ & H).
  apply (H "/proj" []); reflexivity.
Defined.

(** With two roots the whole first root is probed before the second. *)
Lemma findOxideLsp_roots_in_order (env : Env) (s : Store) (a b : string) (rest : list string) :
  workspaceFolders env = Some (a :: b :: rest) ->
  fs_stat env (path_join env [a; "target"; "release"; "oxide-lsp"]) = false ->
  fs_stat env (path_join env [a; "target"; "debug"; "oxide-lsp"]) = false ->
  fs_stat env (path_join env [b; "target"; "release"; "oxide-lsp"]) = true ->
  exec (findOxideLsp env) s =
  (Returned (Some (path_join env [b; "target"; "release"; "oxide-lsp"])), s,
   [ FsStat (path_join env [a; "target"; "release"; "oxide-lsp"]);
     FsStat (path_join env [a; "target"; "debug"; "oxide-lsp"]);
     FsStat (path_join env [b; "target"; "release"; "oxide-lsp"]) ]).
Proof.
  intros Hroots Har Had Hbr. rewrite findOxideLsp_spec.
  unfold searchOrder, firstExisting. rewrite Hroots. simpl.
  rewrite Har, Had, Hbr. reflexivity.
Qed.

(** C2: a non-empty configured path is the resolved path, whatever the file
    system holds: resolution makes no probe at all (no stat, no lookup
    command), and the client is created for exactly that path. *)
Theorem configured_path_trusted (env : Env) (s : Store) (p : string) :
  lsp_path env = Some p ->
  p <> "" ->
  exec (resolveServerPath env) s = (Returned (Some p), s, []) /\
  exists s' c ev,
    exec (startLspClient env) s = (Returned tt, s', ev) /\
    client s' = Some c /\
    command (run (lc_serverOptions c)) = p /\
    command (debug (lc_serverOptions c)) = p /\
    Forall (fun e => is_probe e = false) ev.
Proof.
  intros Hcfg Hp.
  assert (Hres : exec (resolveServerPath env) s = (Returned (Some p), s, [])).
  { unfold resolveServerPath. rewrite Hcfg, (truthy_nonempty p Hp). reflexivity. }
  split; [exact Hres|].
  unfold startLspClient. rewrite exec_bind, Hres.
  unfold startWith. rewrite (truthy_nonempty p Hp).
  unfold exec, mbind, M_bind, emit, set_client, client_start, subscriptions_push,
    lc_start.
  cbn [client lc_state devServerTerminal subscriptions app].
  destruct (peer_launches env _);
    (eexists _, _, _; split; [reflexivity|]; cbn;
     repeat split; repeat constructor).
Qed.

(** The configured path does not exist and a release build does: the
    configured path still wins, with no probe. *)
Lemma configured_path_trusted_witness :
  fs_stat hostConfigured "/opt/missing/oxide-lsp" = false /\
  exec (resolveServerPath hostConfigured) emptyStore =
  (Returned (Some "/opt/missing/oxide-lsp"), emptyStore, []).
Proof.
  split; [reflexivity|].
  apply (configured_path_trusted hostConfigured emptyStore "/opt/missing/oxide-lsp");
    [reflexivity | discriminate].
Defined.

(** C3: resolution always returns: a stat that fails and a lookup command
    that fails are caught, and the search goes on.  When nothing is
    configured, no candidate exists and the lookup command fails, every
    candidate has been probed in order and the result is [undefined]. *)
Theorem resolve_absent_never_raises (env : Env) (s : Store) :
  (exists r ev, exec (resolveServerPath env) s = (Returned r, s, ev)) /\
  (JsString.truthy (lsp_path env) = None ->
   Forall (fun q => fs_stat env q = false) (searchOrder env) ->
   execSync env (lookupCommand env) = None ->
   exec (resolveServerPath env) s =
   (Returned None, s,
    map FsStat (searchOrder env) ++ [ExecSyncCall (lookupCommand env)])).
Proof.
  split; [apply resolveServerPath_returns|].
  intros Hcfg Hnone Hexec.
  rewrite (resolveServerPath_unconfigured env s Hcfg), findOxideLsp_spec.
  destruct (firstExisting_none env _ Hnone) as [-> _].
  rewrite (pathLookup_failed env Hexec). reflexivity.
Qed.

Lemma resolve_absent_never_raises_witness :
  exec (resolveServerPath hostNothing) emptyStore =
  (Returned None, emptyStore,
   [ FsStat "/proj/target/release/oxide-lsp";
     FsStat "/proj/target/debug/oxide-lsp";
     FsStat "/lib/target/release/oxide-lsp";
     FsStat "/lib/target/debug/oxide-lsp";
     FsStat "/ext/bin/oxide-lsp";
     ExecSyncCall "which oxide-lsp" ]).
Proof.
  apply (proj2 (resolve_absent_never_raises hostNothing emptyStore));
    [reflexivity | repeat constructor | reflexivity].
Defined.

(** C8: on Windows, when [where] prints two matches, the resolved path is the
    first line of the trimmed output and still carries the carriage return
    that ended that line: it is not the trimmed first line. *)
Theorem path_lookup_keeps_carriage_return :
  exec (findOxideLsp hostWindows) emptyStore =
  (Returned (Some ("C:\bin\oxide-lsp.exe" +:+ String JsString.CR EmptyString)),
   emptyStore,
   [FsStat "C:\ext\bin\oxide-lsp"; ExecSyncCall "where oxide-lsp"]) /\
  JsString.trim (JsString.first_line whereOutput) = "C:\bin\oxide-lsp.exe" /\
  JsString.first_line (JsString.trim whereOutput) <>
  JsString.trim (JsString.first_line whereOutput).
Proof.
  split; [reflexivity|]. split; [reflexivity|]. discriminate.
Qed.

(** An output made of white space only gives the empty string, which the
    caller treats like [undefined]. *)
Lemma pathLookup_blank (env : Env) (out : string) :
  execSync env (lookupCommand env) = Some out ->
  JsString.trim out = "" ->
  JsString.truthy (pathLookup env) = None.
Proof. unfold pathLookup. intros -> ->. reflexivity. Qed.

(** ** Client Supervisor *)

Lemma startWith_falsy (env : Env) (s : Store) (serverPath : option string) :
  JsString.truthy serverPath = None ->
  exec (startWith env serverPath) s =
  (Returned tt, s, [ShowWarningMessage notFoundWarning]).
Proof. unfold startWith. intros ->. reflexivity. Qed.

(** C4: starting with an absent (falsy) resolved path shows the warning once
    and does nothing else: the store, hence the handle and its state, is
    unchanged, no watcher or channel is created, no client is constructed
    and nothing is spawned. *)
Theorem start_absent_warns_once (env : Env) (s : Store) (serverPath : option string) :
  JsString.truthy serverPath = None ->
  exec (startWith env serverPath) s =
  (Returned tt, s, [ShowWarningMessage notFoundWarning]).
Proof. apply startWith_falsy. Qed.

Lemma start_absent_warns_once_witness :
  handleState emptyStore = Absent /\
  exec (startWith hostNothing None) emptyStore =
  (Returned tt, emptyStore, [ShowWarningMessage notFoundWarning]).
Proof.
  split; [reflexivity|].
  apply (start_absent_warns_once hostNothing emptyStore None). reflexivity.
Defined.

(** The same from the entry point: a failed resolution ends in the warning. *)
Lemma startLspClient_unresolved (env : Env) (s : Store) (r : option string) (ev : list Event) :
  exec (resolveServerPath env) s = (Returned r, s, ev) ->
  JsString.truthy r = None ->
  exec (startLspClient env) s =
  (Returned tt, s, ev ++ [ShowWarningMessage notFoundWarning]).
Proof.
  intros Hres Hr. unfold startLspClient.
  rewrite exec_bind, Hres, (startWith_falsy env s r Hr). reflexivity.
Qed.

Lemma startWith_returns (env : Env) (serverPath : option string) (s : Store) :
  exists s' ev, exec (startWith env serverPath) s = (Returned tt, s', ev).
Proof.
  unfold startWith. destruct (JsString.truthy serverPath) as [p|].
  - unfold exec, mbind, M_bind, emit, set_client, client_start,
      subscriptions_push, lc_start.
    cbn [client lc_state devServerTerminal subscriptions].
    destruct (peer_launches env _); eauto.
  - eauto.
Qed.

Lemma startLspClient_returns (env : Env) (s : Store) :
  exists s' ev, exec (startLspClient env) s = (Returned tt, s', ev).
Proof.
  unfold startLspClient. rewrite exec_bind.
  destruct (resolveServerPath_returns env s) as (r & ev & ->).
  destruct (startWith_returns env r s) as (s' & ev' & ->). eauto.
Qed.

Lemma lc_stop_not_running (c : LanguageClient) :
  lc_state (fst (lc_stop c)) <> Running.
Proof. unfold lc_stop. destruct (lc_state c) eqn:H; simpl; congruence. Qed.

Lemma lc_stop_idle (c : LanguageClient) :
  lc_state c <> Running -> lc_stop c = (c, [ClientStop]).
Proof. unfold lc_stop. destruct (lc_state c); congruence. Qed.

Lemma stopLspClient_idle (s : Store) :
  handleState s <> Running ->
  exec stopLspClient s =
  (Returned tt, s, match client s with Some _ => [ClientStop] | None => [] end).
Proof.
  unfold handleState, stopLspClient, exec, mbind, M_bind, get_client, client_stop.
  destruct s as [[c|] t subs]; cbn [client devServerTerminal subscriptions];
    [|reflexivity].
  intros Hc. rewrite (lc_stop_idle c Hc). reflexivity.
Qed.

Lemma stopLspClient_returns (s : Store) :
  exists s1 ev1,
    exec stopLspClient s = (Returned tt, s1, ev1) /\
    handleState s1 <> Running /\
    devServerTerminal s1 = devServerTerminal s /\
    subscriptions s1 = subscriptions s /\
    (client s = None -> s1 = s /\ ev1 = []).
Proof.
  unfold handleState, stopLspClient, exec, mbind, M_bind, get_client, client_stop.
  destruct s as [[c|] t subs]; cbn [client devServerTerminal subscriptions].
  - pose proof (lc_stop_not_running c) as Hc.
    destruct (lc_stop c) as [c' ev]. cbn [fst] in Hc.
    eexists _, _. split; [reflexivity|]. cbn. repeat split; try assumption.
    all: discriminate.
  - eexists _, _. split; [reflexivity|]. cbn. repeat split. discriminate.
Qed.

Lemma deactivate_as_stop (s : Store) :
  exec deactivate s =
  match exec stopLspClient s with
  | (o, s1, ev) =>
      (o, s1,
       ConsoleLog "OxideKit extension deactivating..."
       :: match devServerTerminal s with
          | Some _ => [TerminalDispose]
          | None => []
          end ++ ev)
  end.
Proof.
  destruct s as [c t subs].
  unfold deactivate, exec, mbind, M_bind, emit, get_devServerTerminal.
  cbn [devServerTerminal].
  destruct t; cbn [mret M_ret app];
    destruct (stopLspClient _) as [[o s1] ev]; reflexivity.
Qed.

(** C5: stop is idempotent.  A first stop returns normally and leaves the
    handle not running; a second stop then returns normally, leaves the
    store exactly as it is, and its whole trace is the repeated call of
    [client.stop()], which a client that is not running ignores: no process
    is shut down and nothing is shown.  Stopping when the handle is absent
    is a no-op in the same way, and makes no call at all when no client was
    ever created.  A second [deactivate] leaves the store as the first one
    left it. *)
Theorem stop_idempotent (s : Store) :
  (exists s1 ev1,
     exec stopLspClient s = (Returned tt, s1, ev1) /\
     handleState s1 <> Running /\
     exec stopLspClient s1 =
     (Returned tt, s1, match client s1 with Some _ => [ClientStop] | None => [] end)) /\
  (handleState s = Absent ->
   exec stopLspClient s =
   (Returned tt, s, match client s with Some _ => [ClientStop] | None => [] end)) /\
  (exists s1 ev1 ev2,
     exec deactivate s = (Returned tt, s1, ev1) /\
     exec deactivate s1 = (Returned tt, s1, ev2) /\
     ~ In ShutdownProcess ev2).
Proof.
  destruct (stopLspClient_returns s) as (s1 & ev1 & H1 & Hidle & Ht & _ & _).
  pose proof (stopLspClient_idle s1 Hidle) as H2.
  repeat split.
  - exists s1, ev1. repeat split; [exact H1 | exact Hidle | exact H2].
  - intros Habs. apply stopLspClient_idle. congruence.
  - eexists s1, _, _. rewrite !deactivate_as_stop, H1, H2.
    repeat split.
    destruct (devServerTerminal s1), (client s1); cbn; intuition discriminate.
Qed.

Lemma stop_idempotent_witness :
  exec stopLspClient emptyStore = (Returned tt, emptyStore, []).
Proof.
  destruct (stop_idempotent emptyStore) as (_ & Habsent & _).
  apply (Habsent eq_refl).
Defined.

(** C6: restarting a running handle calls stop once, which shuts the process
    down, then start once, which spawns the executable the handle was created
    with, and then shows the confirmation once, after both; the handle is the
    same object, running again. *)
Theorem restart_running (env : Env) (s : Store) (c : LanguageClient) :
  client s = Some c ->
  lc_state c = Running ->
  peer_launches env (launchExecutable env c) = true ->
  exec (restartLsp env) s =
  (Returned tt, s,
   [ ClientStop; ShutdownProcess;
     ClientStart; SpawnProcess (launchExecutable env c);
     ShowInformationMessage "OxideKit language server restarted" ]) /\
  handleState s = Running.
Proof.
  intros Hc Hrun Hpeer. split; [|unfold handleState; rewrite Hc; exact Hrun].
  destruct s as [c0 t subs]. cbn [client] in Hc. subst c0.
  unfold restartLsp, exec, mbind, M_bind, get_client, client_stop, client_start,
    emit, lc_stop, lc_start.
  cbn [client devServerTerminal subscriptions]. rewrite Hrun.
  cbn [client devServerTerminal subscriptions with_state lc_state].
  change (launchExecutable env (with_state c Absent)) with (launchExecutable env c).
  rewrite Hpeer. cbn [app].
  replace (with_state (with_state c Absent) Running) with c
    by (destruct c; cbn in Hrun; subst; reflexivity).
  reflexivity.
Qed.

(** C7: with no handle, restart does nothing: no stop, no start, no
    notification, and the store is untouched. *)
Theorem restart_without_handle (env : Env) (s : Store) :
  client s = None ->
  exec (restartLsp env) s = (Returned tt, s, []).
Proof.
  intros Hc. unfold restartLsp, exec, mbind, M_bind, get_client.
  rewrite Hc. reflexivity.
Qed.

Lemma restart_without_handle_witness :
  exec (restartLsp hostNothing) emptyStore = (Returned tt, emptyStore, []).
Proof. apply (restart_without_handle hostNothing emptyStore). reflexivity. Defined.

Lemma activate_connects :
  exists ev, exec (activate hostDebugOnly) emptyStore = (Returned tt, storeConnected, ev).
Proof. eexists. reflexivity. Qed.

Lemma restart_running_witness :
  exec (restartLsp hostDebugOnly) storeConnected =
  (Returned tt, storeConnected,
   [ ClientStop; ShutdownProcess;
     ClientStart;
     SpawnProcess {| command := "/proj/target/debug/oxide-lsp";
                     transport := stdio; options_env := None |};
     ShowInformationMessage "OxideKit language server restarted" ]).
Proof.
  apply (proj1 (restart_running hostDebugOnly storeConnected clientConnected
                  eq_refl eq_refl eq_refl)).
Defined.

(** ** Lifecycle Coordinator *)

Lemma registerAll_spec (names : list string) (s : Store) :
  exec (registerAll names) s =
  (Returned (map DisposeCommand names), s, map RegisterCommand names).
Proof.
  induction names as [|name rest IH]; [reflexivity|].
  cbn [registerAll]. rewrite exec_bind. unfold registerCommand at 1.
  rewrite exec_bind. unfold exec at 1 2, emit, mret, M_ret.
  rewrite exec_bind, IH. unfold exec. cbn. rewrite app_nil_r. reflexivity.
Qed.

Lemma pushCommands_spec (names : list string) (s : Store) :
  exec (pushCommands names) s =
  (Returned tt,
   {| client := client s; devServerTerminal := devServerTerminal s;
      subscriptions := subscriptions s ++ map DisposeCommand names |},
   map RegisterCommand names).
Proof.
  unfold pushCommands. rewrite exec_bind, registerAll_spec.
  unfold exec, subscriptions_push. rewrite app_nil_r. reflexivity.
Qed.

Lemma registerCommands_spec (s : Store) :
  exec registerCommands s =
  (Returned tt,
   {| client := client s; devServerTerminal := devServerTerminal s;
      subscriptions := subscriptions s ++ map DisposeCommand commandNames |},
   map RegisterCommand commandNames).
Proof.
  unfold registerCommands.
  repeat (rewrite exec_bind, pushCommands_spec;
          cbn [client devServerTerminal subscriptions]).
  rewrite pushCommands_spec. cbn [client devServerTerminal subscriptions].
  rewrite <- !app_assoc. reflexivity.
Qed.

Lemma registerTreeViews_spec (s : Store) :
  exec registerTreeViews s = (Returned tt, s, map RegisterTreeDataProvider treeViews).
Proof. reflexivity. Qed.

Lemma activate_spec (env : Env) (s s1 : Store) (ev1 : list Event) :
  exec (startLspClient env) s = (Returned tt, s1, ev1) ->
  exec (activate env) s =
  (Returned tt,
   {| client := client s1; devServerTerminal := devServerTerminal s1;
      subscriptions := subscriptions s1 ++ map DisposeCommand commandNames |},
   ConsoleLog "OxideKit extension activating..." :: ev1
   ++ map RegisterCommand commandNames
   ++ map RegisterTreeDataProvider treeViews
   ++ [ConsoleLog "OxideKit extension activated"]).
Proof.
  intros Hstart. unfold activate.
  rewrite exec_bind. unfold exec at 1, emit.
  rewrite exec_bind, Hstart, exec_bind, registerCommands_spec.
  rewrite exec_bind, registerTreeViews_spec. reflexivity.
Qed.

(** C9: activation always runs to its end.  When nothing resolves, it shows
    the warning, still registers every command and tree view, logs that it
    is activated and returns normally, with the handle as it was. *)
Theorem activate_completes (env : Env) (s : Store) :
  (exists s' ev, exec (activate env) s = (Returned tt, s', ev)) /\
  (forall r ev0,
     exec (resolveServerPath env) s = (Returned r, s, ev0) ->
     JsString.truthy r = None ->
     exec (activate env) s =
     (Returned tt,
      {| client := client s; devServerTerminal := devServerTerminal s;
         subscriptions := subscriptions s ++ map DisposeCommand commandNames |},
      ConsoleLog "OxideKit extension activating..."
      :: (ev0 ++ [ShowWarningMessage notFoundWarning])
      ++ map RegisterCommand commandNames
      ++ map RegisterTreeDataProvider treeViews
      ++ [ConsoleLog "OxideKit extension activated"])).
Proof.
  split.
  - destruct (startLspClient_returns env s) as (s1 & ev1 & Hstart).
    rewrite (activate_spec env s s1 ev1 Hstart). eauto.
  - intros r ev0 Hres Hr.
    apply activate_spec. apply (startLspClient_unresolved env s r ev0 Hres Hr).
Qed.

Lemma activate_completes_witness :
  exists ev,
    exec (activate hostNothing) emptyStore =
    (Returned tt,
     {| client := None; devServerTerminal := None;
        subscriptions := map DisposeCommand commandNames |},
     ev) /\
    In (ShowWarningMessage notFoundWarning) ev /\
    last ev = Some (ConsoleLog "OxideKit extension activated").
Proof.
  eexists. split.
  - apply (proj2 (activate_completes hostNothing emptyStore) None
             (map FsStat (searchOrder hostNothing) ++ [ExecSyncCall "which oxide-lsp"]));
      reflexivity.
  - split; [cbn; tauto | reflexivity].
Defined.

(** ** The handle reference is never cleared *)

Create HintDb handle.

Lemma keeps_unchanged {A} (m : M A) :
  (forall s, snd (fst (exec m s)) = s) -> keeps_handle m.
Proof. intros H s Hs. rewrite H. exact Hs. Qed.

Lemma keeps_ret {A} (a : A) : keeps_handle (mret a).
Proof. apply keeps_unchanged. reflexivity. Qed.

Lemma keeps_emit (e : Event) : keeps_handle (emit e).
Proof. apply keeps_unchanged. reflexivity. Qed.

Lemma keeps_get_client : keeps_handle get_client.
Proof. apply keeps_unchanged. reflexivity. Qed.

Lemma keeps_get_devServerTerminal : keeps_handle get_devServerTerminal.
Proof. apply keeps_unchanged. reflexivity. Qed.

Lemma keeps_bind {A B} (m : M A) (k : A -> M B) :
  keeps_handle m -> (forall a, keeps_handle (k a)) -> keeps_handle (m ≫= k).
Proof.
  intros Hm Hk s Hs. specialize (Hm s Hs).
  unfold exec, mbind, M_bind in *.
  destruct (m s) as [[[a|e] s1] ev1]; cbn [fst snd] in *; [|exact Hm].
  specialize (Hk a s1 Hm). unfold exec in Hk.
  destruct (k a s1) as [[o s2] ev2]. exact Hk.
Qed.

Lemma keeps_set_client (c : LanguageClient) : keeps_handle (set_client (Some c)).
Proof. intros s _. cbn. eauto. Qed.

Lemma keeps_set_devServerTerminal (t : option Terminal) :
  keeps_handle (set_devServerTerminal t).
Proof. intros s Hs. exact Hs. Qed.

Lemma keeps_subscriptions_push (ds : list Disposable) :
  keeps_handle (subscriptions_push ds).
Proof. intros s Hs. exact Hs. Qed.

Lemma keeps_client_start (env : Env) : keeps_handle (client_start env).
Proof.
  intros s Hs. unfold exec, client_start.
  destruct (client s) as [c|]; [|destruct Hs; discriminate].
  destruct (lc_start env c). cbn. eauto.
Qed.

Lemma keeps_client_stop : keeps_handle client_stop.
Proof.
  intros s Hs. unfold exec, client_stop.
  destruct (client s) as [c|]; [|destruct Hs; discriminate].
  destruct (lc_stop c). cbn. eauto.
Qed.

Lemma keeps_resolveServerPath (env : Env) : keeps_handle (resolveServerPath env).
Proof.
  apply keeps_unchanged. intros s.
  destruct (resolveServerPath_returns env s) as (r & ev & ->). reflexivity.
Qed.

Lemma keeps_registerCommands : keeps_handle registerCommands.
Proof. intros s Hs. rewrite registerCommands_spec. exact Hs. Qed.

Lemma keeps_registerTreeViews : keeps_handle registerTreeViews.
Proof. apply keeps_unchanged. reflexivity. Qed.

#[local] Hint Resolve keeps_ret keeps_emit keeps_get_client keeps_get_devServerTerminal
  keeps_set_client keeps_set_devServerTerminal keeps_subscriptions_push
  keeps_client_start keeps_client_stop keeps_resolveServerPath
  keeps_registerCommands keeps_registerTreeViews : handle.

Ltac keeps_step :=
  first [ solve [auto with handle]
        | apply keeps_bind; [keeps_step | intros; keeps_step]
        | idtac ].

Lemma keeps_startWith (env : Env) (serverPath : option string) :
  keeps_handle (startWith env serverPath).
Proof.
  unfold startWith. destruct (JsString.truthy serverPath); keeps_step.
Qed.

#[local] Hint Resolve keeps_startWith : handle.

Lemma keeps_startLspClient (env : Env) : keeps_handle (startLspClient env).
Proof. unfold startLspClient. keeps_step. Qed.

Lemma keeps_stopLspClient : keeps_handle stopLspClient.
Proof. unfold stopLspClient. keeps_step. destruct a; auto with handle. Qed.

#[local] Hint Resolve keeps_startLspClient keeps_stopLspClient : handle.

Lemma keeps_handler (env : Env) (c : Command) : keeps_handle (handler env c).
Proof.
  destruct c; cbn [handler].
  - unfold activate. keeps_step.
  - unfold deactivate. keeps_step. destruct a0; auto with handle.
  - unfold restartLsp. keeps_step. destruct a; keeps_step.
  - unfold startDevServer. keeps_step. destruct a; keeps_step.
  - unfold stopDevServer. keeps_step. destruct a; keeps_step.
Qed.

Lemma runCommands_keeps_handle (env : Env) (cmds : list Command) (s : Store) :
  is_Some (client s) -> is_Some (client (fst (runCommands env cmds s))).
Proof.
  revert s. induction cmds as [|c rest IH]; intros s Hs; [exact Hs|].
  cbn [runCommands].
  pose proof (keeps_handler env c s Hs) as Hc.
  destruct (exec (handler env c) s) as [[o s1] ev1]. cbn [fst snd] in Hc.
  specialize (IH s1 Hc). destruct (runCommands env rest s1) as [s2 ev2].
  exact IH.
Qed.

Lemma restartLsp_idle (env : Env) (s : Store) (c : LanguageClient) :
  client s = Some c ->
  lc_state c <> Running ->
  exists s2,
    exec (restartLsp env) s =
    (Returned tt, s2,
     ClientStop :: ClientStart :: tail (snd (lc_start env c))
     ++ [ShowInformationMessage "OxideKit language server restarted"]) /\
    is_Some (client s2).
Proof.
  intros Hc Hidle. destruct s as [c0 t subs]. cbn [client] in Hc. subst c0.
  unfold restartLsp, exec, mbind, M_bind, get_client, client_stop, client_start, emit.
  cbn [client devServerTerminal subscriptions].
  rewrite (lc_stop_idle c Hidle). cbn [client devServerTerminal subscriptions].
  unfold lc_start.
  destruct (lc_state c); [destruct (peer_launches env _)| | |];
    (eexists; split; [reflexivity | cbn; eauto]).
Qed.

(** C10: once a client exists, no sequence of activations, deactivations and
    commands makes the reference undefined again.  So a second [deactivate]
    calls [client.stop()] on the stopped client once more, and a restart
    after deactivation calls stop and then start on it and shows its
    confirmation, instead of doing nothing. *)
Theorem handle_never_reset (env : Env) (s : Store) (c : LanguageClient) :
  client s = Some c ->
  (forall cmds, is_Some (client (fst (runCommands env cmds s)))) /\
  (exists s1 ev1 ev2,
     exec deactivate s = (Returned tt, s1, ev1) /\
     is_Some (client s1) /\
     exec deactivate s1 = (Returned tt, s1, ev2) /\
     In ClientStop ev2) /\
  (exists s1 ev1 s2 mid,
     exec deactivate s = (Returned tt, s1, ev1) /\
     exec (restartLsp env) s1 =
     (Returned tt, s2,
      ClientStop :: ClientStart :: mid
      ++ [ShowInformationMessage "OxideKit language server restarted"]) /\
     is_Some (client s2)).
Proof.
  intros Hc.
  assert (Hs : is_Some (client s)) by (rewrite Hc; eauto).
  destruct (stopLspClient_returns s) as (s1 & ev1 & H1 & Hidle & _).
  assert (Hs1 : is_Some (client s1)).
  { pose proof (keeps_stopLspClient s Hs) as H. rewrite H1 in H. exact H. }
  destruct Hs1 as [c1 Hc1].
  assert (Hidle1 : lc_state c1 <> Running).
  { unfold handleState in Hidle. rewrite Hc1 in Hidle. exact Hidle. }
  pose proof (stopLspClient_idle s1 Hidle) as H2. rewrite Hc1 in H2.
  split; [intros cmds; apply runCommands_keeps_handle; exact Hs|]. split.
  - eexists s1, _, _. rewrite !deactivate_as_stop, H1, H2.
    repeat split; [rewrite Hc1; eauto|].
    apply in_cons, in_or_app. right. left. reflexivity.
  - destruct (restartLsp_idle env s1 c1 Hc1 Hidle1) as (s2 & Hr & Hs2).
    eexists s1, _, s2, _. rewrite deactivate_as_stop, H1.
    repeat split; [exact Hr | exact Hs2].
Qed.

Lemma handle_never_reset_witness :
  is_Some (client (fst (runCommands hostDebugOnly
                          [Deactivate; Deactivate; RestartLsp; Deactivate]
                          storeConnected))).
Proof.
  apply (proj1 (handle_never_reset hostDebugOnly storeConnected clientConnected eq_refl)).
Defined.

(** * Further properties of the resolver's strings *)

Section StringFacts.

Import JsString JsLines.

Lemma append_cons (c : ascii) (a b : string) : String c a +:+ b = String c (a +:+ b).
Proof. reflexivity. Qed.

Lemma append_empty_r (s : string) : s +:+ "" = s.
Proof. induction s as [|c s IH]; [reflexivity|]. rewrite append_cons, IH. reflexivity. Qed.

Lemma append_assoc (a b c : string) : (a +:+ b) +:+ c = a +:+ (b +:+ c).
Proof. induction a as [|x a IH]; [reflexivity|]. rewrite !append_cons, IH. reflexivity. Qed.

Lemma eqb_LF_white_space (c : ascii) : Ascii.eqb c LF = true -> is_white_space c = true.
Proof. intros H. apply Ascii.eqb_eq in H. subst c. reflexivity. Qed.

Lemma first_line_no_LF (s : string) : has_LF (first_line s) = false.
Proof.
  induction s as [|c s IH]; [reflexivity|]. cbn.
  destruct (Ascii.eqb c LF) eqn:Hc; [reflexivity|]. cbn. rewrite Hc. exact IH.
Qed.

Lemma first_line_id (s : string) : has_LF s = false -> first_line s = s.
Proof.
  induction s as [|c s IH]; [reflexivity|]. cbn.
  destruct (Ascii.eqb c LF); [discriminate|]. cbn. intros H. rewrite (IH H). reflexivity.
Qed.

Lemma trim_start_head (s : string) : starts_with_white_space (trim_start s) = false.
Proof.
  induction s as [|c s IH]; [reflexivity|]. cbn.
  destruct (is_white_space c) eqn:Hc; [exact IH | cbn; exact Hc].
Qed.

Lemma trim_start_id (s : string) : starts_with_white_space s = false -> trim_start s = s.
Proof. destruct s as [|c s]; [reflexivity|]. cbn. intros ->. reflexivity. Qed.

Lemma trim_end_head (s : string) :
  starts_with_white_space s = false -> starts_with_white_space (trim_end s) = false.
Proof.
  destruct s as [|c s]; [reflexivity|]. cbn. intros Hc.
  destruct (trim_end s); [rewrite Hc|]; cbn; try exact Hc.
Qed.

Lemma first_line_head (s : string) :
  starts_with_white_space s = false -> starts_with_white_space (first_line s) = false.
Proof.
  destruct s as [|c s]; [reflexivity|]. cbn. intros Hc.
  destruct (Ascii.eqb c LF) eqn:Hlf; [reflexivity | cbn; exact Hc].
Qed.

Lemma trim_end_idempotent (s : string) : trim_end (trim_end s) = trim_end s.
Proof.
  induction s as [|c s IH]; [reflexivity|]. cbn.
  destruct (trim_end s) as [|k kept] eqn:Hk.
  - destruct (is_white_space c) eqn:Hc; [reflexivity|]. cbn. rewrite Hc. reflexivity.
  - cbn [trim_end]. cbn [trim_end] in IH. rewrite IH. reflexivity.
Qed.

Lemma trim_idempotent (s : string) : trim (trim s) = trim s.
Proof.
  unfold trim.
  rewrite (trim_start_id (trim_end (trim_start s))).
  - apply trim_end_idempotent.
  - apply trim_end_head, trim_start_head.
Qed.

Lemma trim_end_white (s : string) : all_white_space s = true -> trim_end s = "".
Proof.
  induction s as [|c s IH]; [reflexivity|]. cbn.
  destruct (is_white_space c); [|discriminate]. cbn. intros H. rewrite (IH H). reflexivity.
Qed.

Lemma trim_end_empty (s : string) : trim_end s = "" -> all_white_space s = true.
Proof.
  induction s as [|c s IH]; [reflexivity|]. cbn.
  destruct (trim_end s); [|discriminate].
  destruct (is_white_space c); [|discriminate]. intros _. cbn. apply IH. reflexivity.
Qed.

Lemma trim_start_white (s : string) : all_white_space s = true -> trim_start s = "".
Proof.
  induction s as [|c s IH]; [reflexivity|]. cbn.
  destruct (is_white_space c); [|discriminate]. exact IH.
Qed.

Lemma trim_start_empty (s : string) : trim_start s = "" -> all_white_space s = true.
Proof.
  induction s as [|c s IH]; [reflexivity|]. cbn.
  destruct (is_white_space c); [exact IH | discriminate].
Qed.

Lemma trim_empty_iff (s : string) : trim s = "" <-> all_white_space s = true.
Proof.
  unfold trim. split.
  - intros H. apply trim_end_empty in H. apply trim_start_empty.
    pose proof (trim_start_head s) as Hh.
    destruct (trim_start s) as [|c t]; [reflexivity|].
    cbn in H, Hh. rewrite Hh in H. discriminate.
  - intros H. rewrite (trim_start_white s H). reflexivity.
Qed.

Lemma first_line_trim_empty_iff (s : string) :
  first_line (trim s) = "" <-> all_white_space s = true.
Proof.
  rewrite <- trim_empty_iff. split.
  - intros H.
    assert (Hh : starts_with_white_space (trim s) = false)
      by (apply trim_end_head, trim_start_head).
    destruct (trim s) as [|c t]; [reflexivity|]. cbn in H, Hh.
    destruct (Ascii.eqb c LF) eqn:Hc; [|discriminate].
    rewrite (eqb_LF_white_space c Hc) in Hh. discriminate.
  - intros ->. reflexivity.
Qed.

(** [split('\n')] and [join] *)

Lemma split_lines_nonempty (s : string) : split_lines s <> [].
Proof.
  induction s as [|c s IH]; [discriminate|]. cbn.
  destruct (Ascii.eqb c LF); [discriminate|].
  destruct (split_lines s); discriminate.
Qed.

Lemma split_lines_one (s : string) : has_LF s = false -> split_lines s = [s].
Proof.
  induction s as [|c s IH]; [reflexivity|]. cbn.
  destruct (Ascii.eqb c LF); [discriminate|]. cbn. intros H. rewrite (IH H). reflexivity.
Qed.

Lemma split_lines_app (a b : string) :
  split_lines (a +:+ String LF b) = split_lines a ++ split_lines b.
Proof.
  induction a as [|c a IH]; [reflexivity|]. rewrite append_cons. cbn [split_lines].
  destruct (Ascii.eqb c LF); [rewrite IH; reflexivity|].
  rewrite IH. pose proof (split_lines_nonempty a) as Hne.
  destruct (split_lines a); [congruence | reflexivity].
Qed.

Lemma split_lines_no_LF (s : string) :
  Forall (fun l => has_LF l = false) (split_lines s).
Proof.
  induction s as [|c s IH]; [repeat constructor|]. cbn.
  destruct (Ascii.eqb c LF) eqn:Hc; [constructor; [reflexivity | exact IH]|].
  destruct (split_lines s) as [|l ls]; [repeat constructor; cbn; rewrite Hc; reflexivity|].
  inversion IH as [|? ? Hl Hls]; subst.
  constructor; [cbn; rewrite Hc; exact Hl | exact Hls].
Qed.

Lemma has_LF_app (a b : string) : has_LF (a +:+ b) = has_LF a || has_LF b.
Proof.
  induction a as [|c a IH]; [reflexivity|]. rewrite append_cons. cbn [has_LF].
  rewrite IH. destruct (Ascii.eqb c LF); reflexivity.
Qed.

Lemma first_line_hd (s : string) : first_line s = hd "" (split_lines s).
Proof.
  induction s as [|c s IH]; [reflexivity|]. cbn.
  destruct (Ascii.eqb c LF); [reflexivity|]. rewrite IH.
  pose proof (split_lines_nonempty s) as Hne.
  destruct (split_lines s); [congruence | reflexivity].
Qed.

Lemma join_cons2 (sep l l' : string) (rest : list string) :
  join sep (l :: l' :: rest) = l +:+ sep +:+ join sep (l' :: rest).
Proof. reflexivity. Qed.

Lemma join_split_lines (s : string) : join nl (split_lines s) = s.
Proof.
  induction s as [|c s IH]; [reflexivity|]. cbn [split_lines].
  pose proof (split_lines_nonempty s) as Hne.
  destruct (Ascii.eqb c LF) eqn:Hc.
  - apply Ascii.eqb_eq in Hc. subst c.
    destruct (split_lines s) as [|l ls]; [congruence|].
    rewrite join_cons2, IH. reflexivity.
  - destruct (split_lines s) as [|l ls]; [congruence|].
    rewrite <- IH. destruct ls; reflexivity.
Qed.

Lemma nl_append (a b : string) : (nl +:+ a) +:+ b = String LF (a +:+ b).
Proof. reflexivity. Qed.

Lemma split_indented_join (ind l : string) (rest : list string) :
  has_LF ind = false ->
  Forall (fun x => has_LF x = false) (l :: rest) ->
  split_lines (ind +:+ join (nl +:+ ind) (l :: rest)) = map (String.append ind) (l :: rest).
Proof.
  intros Hind. revert l. induction rest as [|l' rest IH]; intros l Hall.
  - inversion Hall; subst. cbn [join String.concat map].
    apply split_lines_one. rewrite has_LF_app, Hind. assumption.
  - inversion Hall as [|? ? Hl Hrest]; subst.
    rewrite join_cons2, (nl_append ind).
    rewrite <- append_assoc, split_lines_app, (IH l' Hrest).
    rewrite split_lines_one by (rewrite has_LF_app, Hind; exact Hl).
    reflexivity.
Qed.

End StringFacts.

(** * Further properties of the Binary Resolver *)

Lemma probed_length (env : Env) (paths : list string) :
  List.length (probed env paths) <= List.length paths.
Proof.
  induction paths as [|p rest IH]; [reflexivity|]. cbn.
  destruct (fs_stat env p); cbn; lia.
Qed.

Lemma probed_all_probes (paths : list string) :
  Forall (fun e => is_probe e = true) (map FsStat paths).
Proof. induction paths; constructor; [reflexivity | assumption]. Qed.

Lemma searchOrder_length (env : Env) :
  List.length (searchOrder env) =
  2 * List.length (default [] (workspaceFolders env)) + 1.
Proof.
  unfold searchOrder. rewrite length_app. cbn [List.length].
  destruct (workspaceFolders env) as [roots|]; cbn [default]; [|reflexivity].
  induction roots as [|r roots IH]; [reflexivity|].
  cbn [flat_map]. rewrite length_app. unfold id in *.
  cbn [localPaths List.length] in *. lia.
Qed.

Lemma firstExisting_sound (env : Env) (paths : list string) (p : string) :
  firstExisting env paths = Some p -> In p paths /\ fs_stat env p = true.
Proof. unfold firstExisting. apply find_some. Qed.

Lemma firstExisting_absent (env : Env) (paths : list string) :
  firstExisting env paths = None -> Forall (fun q => fs_stat env q = false) paths.
Proof.
  unfold firstExisting. intros H. apply Forall_forall. intros q Hq.
  apply list_elem_of_In in Hq. exact (find_none _ _ H q Hq).
Qed.

(** X1: a path that the search returns is either one of the candidates, and
    then it exists, or comes from the lookup command, and then no candidate
    exists. *)
Theorem findOxideLsp_sound (env : Env) (s s' : Store) (p : string) (ev : list Event) :
  exec (findOxideLsp env) s = (Returned (Some p), s', ev) ->
  (In p (searchOrder env) /\ fs_stat env p = true /\
   ~ In (ExecSyncCall (lookupCommand env)) ev) \/
  (Forall (fun q => fs_stat env q = false) (searchOrder env) /\
   pathLookup env = Some p /\
   last ev = Some (ExecSyncCall (lookupCommand env))).
Proof.
  rewrite findOxideLsp_spec.
  destruct (firstExisting env (searchOrder env)) as [q|] eqn:Hfirst; intros H.
  - injection H as Hq _ Hev. subst q ev. left.
    destruct (firstExisting_sound env _ p Hfirst) as [Hin Hex].
    repeat split; [exact Hin | exact Hex |].
    intros Hc. apply in_map_iff in Hc. destruct Hc as (x & Hx & _). discriminate.
  - injection H as Hp _ Hev. subst ev. right.
    repeat split; [apply firstExisting_absent; exact Hfirst | exact Hp |].
    apply last_snoc.
Qed.

Lemma findOxideLsp_sound_witness :
  In "/proj/target/debug/oxide-lsp" (searchOrder hostDebugOnly) /\
  fs_stat hostDebugOnly "/proj/target/debug/oxide-lsp" = true.
Proof.
  destruct (findOxideLsp_sound hostDebugOnly emptyStore emptyStore
              "/proj/target/debug/oxide-lsp"
              [ FsStat "/proj/target/release/oxide-lsp";
                FsStat "/proj/target/debug/oxide-lsp" ] eq_refl)
    as [(Hin & Hex & _) | (Habs & _)].
  - split; [exact Hin | exact Hex].
  - exfalso. inversion Habs as [|? ? _ Hrest]; subst.
    inversion Hrest as [|? ? Hdbg _]; subst. discriminate Hdbg.
Defined.

(** X2: the search is read-only and bounded: it returns normally with the
    store untouched, every event is a stat or the lookup command, and with
    [n] workspace folders there are at most [2 n + 2] of them. *)
Theorem findOxideLsp_read_only (env : Env) (s : Store) :
  exists r ev,
    exec (findOxideLsp env) s = (Returned r, s, ev) /\
    Forall (fun e => is_probe e = true) ev /\
    List.length ev <= 2 * List.length (default [] (workspaceFolders env)) + 2.
Proof.
  rewrite findOxideLsp_spec.
  pose proof (searchOrder_length env) as Hlen.
  pose proof (probed_length env (searchOrder env)) as Hpr.
  destruct (firstExisting env (searchOrder env)) as [q|].
  - eexists _, _. split; [reflexivity|]. split; [apply probed_all_probes|].
    rewrite length_map. lia.
  - eexists _, _. split; [reflexivity|]. split.
    + apply Forall_app. split; [apply probed_all_probes | repeat constructor].
    + rewrite length_app, length_map. cbn [List.length]. lia.
Qed.

Lemma findOxideLsp_lookup (env : Env) (s : Store) (out : string) :
  Forall (fun q => fs_stat env q = false) (searchOrder env) ->
  execSync env (lookupCommand env) = Some out ->
  exec (findOxideLsp env) s =
  (Returned (Some (JsString.first_line (JsString.trim out))), s,
   map FsStat (searchOrder env) ++ [ExecSyncCall (lookupCommand env)]).
Proof.
  intros Habs Hout. rewrite findOxideLsp_spec.
  destruct (firstExisting_none env _ Habs) as [-> _].
  unfold pathLookup. rewrite Hout. reflexivity.
Qed.

(** X3: whatever the lookup command prints, the path taken from it holds no
    line feed and does not begin with white space, and it is the empty
    string exactly when the output is all white space. *)
Theorem lookup_result_shape (env : Env) (s : Store) (out : string) :
  Forall (fun q => fs_stat env q = false) (searchOrder env) ->
  execSync env (lookupCommand env) = Some out ->
  exists p ev,
    exec (findOxideLsp env) s = (Returned (Some p), s, ev) /\
    JsLines.has_LF p = false /\
    JsLines.starts_with_white_space p = false /\
    (p = "" <-> JsLines.all_white_space out = true).
Proof.
  intros Habs Hout. eexists _, _.
  split; [apply (findOxideLsp_lookup env s out Habs Hout)|].
  split; [apply first_line_no_LF|]. split.
  - apply first_line_head, trim_end_head, trim_start_head.
  - apply first_line_trim_empty_iff.
Qed.

Lemma lookup_result_shape_witness :
  exists p ev,
    exec (findOxideLsp hostWindows) emptyStore = (Returned (Some p), emptyStore, ev) /\
    JsLines.has_LF p = false /\
    JsLines.starts_with_white_space p = false /\
    (p = "" <-> JsLines.all_white_space whereOutput = true).
Proof.
  apply (lookup_result_shape hostWindows emptyStore whereOutput);
    [repeat constructor | reflexivity].
Defined.

(** X4: when the trimmed output of the lookup command is a single line, as
    for one match ended by LF or by CR LF, the resolved path is that trimmed
    output and has no white space at either end. *)
Theorem lookup_single_line (env : Env) (s : Store) (out : string) :
  Forall (fun q => fs_stat env q = false) (searchOrder env) ->
  execSync env (lookupCommand env) = Some out ->
  JsLines.has_LF (JsString.trim out) = false ->
  exec (findOxideLsp env) s =
  (Returned (Some (JsString.trim out)), s,
   map FsStat (searchOrder env) ++ [ExecSyncCall (lookupCommand env)]) /\
  JsString.trim (JsString.trim out) = JsString.trim out.
Proof.
  intros Habs Hout Hone. split; [|apply trim_idempotent].
  rewrite (findOxideLsp_lookup env s out Habs Hout), (first_line_id _ Hone).
  reflexivity.
Qed.

Lemma lookup_single_line_witness :
  exec (findOxideLsp hostOnPath) emptyStore =
  (Returned (Some "/usr/local/bin/oxide-lsp"), emptyStore,
   [ FsStat "/proj/target/release/oxide-lsp";
     FsStat "/proj/target/debug/oxide-lsp";
     FsStat "/ext/bin/oxide-lsp";
     ExecSyncCall "which oxide-lsp" ]).
Proof.
  apply (proj1 (lookup_single_line hostOnPath emptyStore
                  ("/usr/local/bin/oxide-lsp" +:+ JsLines.nl)
                  ltac:(repeat constructor) eq_refl eq_refl)).
Defined.

(** X5: a lookup command that succeeds but prints only white space counts as
    not found: [startLspClient] ends in the warning, creates no client and
    leaves the store as it was. *)
Theorem blank_lookup_is_not_found (env : Env) (s : Store) (out : string) :
  JsString.truthy (lsp_path env) = None ->
  Forall (fun q => fs_stat env q = false) (searchOrder env) ->
  execSync env (lookupCommand env) = Some out ->
  JsLines.all_white_space out = true ->
  exec (startLspClient env) s =
  (Returned tt, s,
   (map FsStat (searchOrder env) ++ [ExecSyncCall (lookupCommand env)])
   ++ [ShowWarningMessage notFoundWarning]).
Proof.
  intros Hcfg Habs Hout Hblank.
  apply (startLspClient_unresolved env s
           (Some (JsString.first_line (JsString.trim out)))).
  - rewrite (resolveServerPath_unconfigured env s Hcfg).
    apply (findOxideLsp_lookup env s out Habs Hout).
  - apply first_line_trim_empty_iff in Hblank. rewrite Hblank. reflexivity.
Qed.

Lemma blank_lookup_is_not_found_witness :
  exec (startLspClient hostBlankLookup) emptyStore =
  (Returned tt, emptyStore,
   [ FsStat "/proj/target/release/oxide-lsp";
     FsStat "/proj/target/debug/oxide-lsp";
     FsStat "/ext/bin/oxide-lsp";
     ExecSyncCall "which oxide-lsp";
     ShowWarningMessage notFoundWarning ]).
Proof.
  apply (blank_lookup_is_not_found hostBlankLookup emptyStore JsLines.nl);
    [reflexivity | repeat constructor | reflexivity | reflexivity].
Defined.

(** * Further properties of the Client Supervisor *)

Lemma startWith_resolved (env : Env) (s : Store) (p : string) :
  p <> "" ->
  exec (startWith env (Some p)) s =
  (Returned tt,
   {| client := Some (fst (lc_start env (freshClient env p)));
      devServerTerminal := devServerTerminal s;
      subscriptions := subscriptions s ++ [DisposeClient] |},
   [ CreateFileSystemWatcher "**/*.{oui,toml}";
     CreateOutputChannel "OxideKit Language Server";
     NewLanguageClient "oxidekit" "OxideKit Language Server" (serverOptionsFor env p) ]
   ++ snd (lc_start env (freshClient env p))).
Proof.
  intros Hp. unfold startWith. rewrite (truthy_nonempty p Hp).
  unfold exec, mbind, M_bind, emit, set_client, client_start, subscriptions_push.
  cbn [client devServerTerminal subscriptions].
  change {| lc_id := "oxidekit"; lc_name := "OxideKit Language Server";
            lc_serverOptions := serverOptionsFor env p;
            lc_clientOptions := clientOptions; lc_state := Absent |}
    with (freshClient env p).
  destruct (lc_start env (freshClient env p)) as [c' ev].
  cbn [fst snd client devServerTerminal subscriptions lc_id lc_name clientOptions
       synchronize_fileEvents outputChannel app].
  rewrite app_nil_r. reflexivity.
Qed.

Lemma lc_start_fresh (env : Env) (p : string) :
  lc_start env (freshClient env p) =
  if peer_launches env (launchExecutable env (freshClient env p))
  then (with_state (freshClient env p) Running,
        [ClientStart; SpawnProcess (launchExecutable env (freshClient env p))])
  else (with_state (freshClient env p) Absent,
        [ ClientStart; SpawnProcess (launchExecutable env (freshClient env p));
          ShowErrorMessage "Couldn't start client OxideKit Language Server" ]).
Proof. reflexivity. Qed.

(** X6: the server options handed to the client use the resolved path for
    both the run and the debug executable, over stdio; the run executable
    gets no environment, the debug executable gets the extension host's
    environment with [RUST_LOG] set to [oxide_lsp=debug], whatever it was
    before, and every other variable as it is. *)
Theorem server_options_environment (env : Env) (s : Store) (p : string) :
  p <> "" ->
  exists s' ev opts debugEnv,
    exec (startWith env (Some p)) s = (Returned tt, s', ev) /\
    In (NewLanguageClient "oxidekit" "OxideKit Language Server" opts) ev /\
    command (run opts) = p /\ command (debug opts) = p /\
    transport (run opts) = stdio /\ transport (debug opts) = stdio /\
    options_env (run opts) = None /\
    options_env (debug opts) = Some debugEnv /\
    debugEnv !! "RUST_LOG" = Some "oxide_lsp=debug" /\
    (forall k, k <> "RUST_LOG" -> debugEnv !! k = process_env env !! k).
Proof.
  intros Hp. eexists _, _, (serverOptionsFor env p), _.
  split; [apply (startWith_resolved env s p Hp)|].
  split; [cbn; tauto|].
  repeat split.
  - apply lookup_insert_eq.
  - intros k Hk. apply lookup_insert_ne. congruence.
Qed.

Lemma server_options_environment_witness :
  exists s' ev opts debugEnv,
    exec (startWith hostCannotLaunch (Some "/opt/oxide/oxide-lsp")) emptyStore =
    (Returned tt, s', ev) /\
    In (NewLanguageClient "oxidekit" "OxideKit Language Server" opts) ev /\
    command (run opts) = "/opt/oxide/oxide-lsp" /\
    command (debug opts) = "/opt/oxide/oxide-lsp" /\
    transport (run opts) = stdio /\ transport (debug opts) = stdio /\
    options_env (run opts) = None /\
    options_env (debug opts) = Some debugEnv /\
    debugEnv !! "RUST_LOG" = Some "oxide_lsp=debug" /\
    (forall k, k <> "RUST_LOG" -> debugEnv !! k = process_env hostCannotLaunch !! k).
Proof.
  apply (server_options_environment hostCannotLaunch emptyStore "/opt/oxide/oxide-lsp").
  discriminate.
Defined.

Lemma resolveServerPath_probes (env : Env) (s : Store) :
  exists r ev,
    exec (resolveServerPath env) s = (Returned r, s, ev) /\
    Forall (fun e => is_probe e = true) ev.
Proof.
  unfold resolveServerPath. destruct (JsString.truthy (lsp_path env)).
  - eexists _, _. split; [reflexivity | constructor].
  - rewrite findOxideLsp_spec.
    destruct (firstExisting env (searchOrder env)); eexists _, _;
      (split; [reflexivity|]).
    + apply probed_all_probes.
    + apply Forall_app. split; [apply probed_all_probes | repeat constructor].
Qed.

(** X7: [startLspClient] never stops anything.  With a configured path it
    overwrites the reference with a new client, whatever the store held, and
    spawns exactly once; a client that was running gets no stop call and
    its process is not shut down. *)
Theorem start_never_stops (env : Env) (s : Store) (p : string) :
  lsp_path env = Some p ->
  p <> "" ->
  exists s' ev,
    exec (startLspClient env) s = (Returned tt, s', ev) /\
    client s' = Some (fst (lc_start env (freshClient env p))) /\
    count_events is_spawn ev = 1 /\
    ~ In ClientStop ev /\ ~ In ShutdownProcess ev.
Proof.
  intros Hcfg Hp. unfold startLspClient. rewrite exec_bind.
  unfold resolveServerPath. rewrite Hcfg, (truthy_nonempty p Hp).
  rewrite exec_ret, (startWith_resolved env s p Hp), lc_start_fresh.
  destruct (peer_launches env _); eexists _, _;
    (split; [reflexivity|]); cbn;
    (split; [reflexivity|]); (split; [reflexivity|]);
    split; intros H; intuition discriminate.
Qed.

(** On a store whose client is running. *)
Lemma start_never_stops_witness :
  handleState storeConnected = Running /\
  exists s' ev,
    exec (startLspClient hostConfigured) storeConnected = (Returned tt, s', ev) /\
    client s' =
    Some (fst (lc_start hostConfigured (freshClient hostConfigured "/opt/missing/oxide-lsp"))) /\
    count_events is_spawn ev = 1 /\
    ~ In ClientStop ev /\ ~ In ShutdownProcess ev.
Proof.
  split; [reflexivity|].
  apply (start_never_stops hostConfigured storeConnected "/opt/missing/oxide-lsp");
    [reflexivity | discriminate].
Defined.



(** * The dev server terminal *)

Lemma startDevServer_spec (s : Store) :
  exec startDevServer s =
  match devServerTerminal s with
  | Some _ => (Returned tt, s, [ShowInformationMessage "Dev server is already running"])
  | None =>
      (Returned tt,
       {| client := client s;
          devServerTerminal := Some {| term_name := "OxideKit Dev" |};
          subscriptions := subscriptions s |},
       [ CreateTerminal "OxideKit Dev"; TerminalShow; TerminalSendText "oxide dev";
         ShowInformationMessage "Starting OxideKit dev server..." ])
  end.
Proof.
  unfold startDevServer, exec, mbind, M_bind, get_devServerTerminal.
  destruct s as [c [t|] subs]; reflexivity.
Qed.

Lemma stopDevServer_spec (s : Store) :
  exec stopDevServer s =
  match devServerTerminal s with
  | None => (Returned tt, s, [ShowInformationMessage "Dev server is not running"])
  | Some _ =>
      (Returned tt,
       {| client := client s; devServerTerminal := None;
          subscriptions := subscriptions s |},
       [TerminalDispose; ShowInformationMessage "Dev server stopped"])
  end.
Proof.
  unfold stopDevServer, exec, mbind, M_bind, get_devServerTerminal.
  destruct s as [c [t|] subs]; reflexivity.
Qed.

(** X9: starting and then stopping the dev server is a round trip on the
    store.  From a store without a terminal, start creates one terminal and
    sends [oxide dev]; a second start only reports that the server is
    running; stop disposes the terminal and gives back the store as it was;
    a second stop only reports that the server is not running. *)
Theorem devServer_round_trip (s : Store) :
  devServerTerminal s = None ->
  exists s1,
    exec startDevServer s =
    (Returned tt, s1,
     [ CreateTerminal "OxideKit Dev"; TerminalShow; TerminalSendText "oxide dev";
       ShowInformationMessage "Starting OxideKit dev server..." ]) /\
    exec startDevServer s1 =
    (Returned tt, s1, [ShowInformationMessage "Dev server is already running"]) /\
    exec stopDevServer s1 =
    (Returned tt, s, [TerminalDispose; ShowInformationMessage "Dev server stopped"]) /\
    exec stopDevServer s =
    (Returned tt, s, [ShowInformationMessage "Dev server is not running"]).
Proof.
  intros Hnone. destruct s as [c t subs]. cbn [devServerTerminal] in Hnone. subst t.
  exists {| client := c; devServerTerminal := Some {| term_name := "OxideKit Dev" |};
            subscriptions := subs |}.
  rewrite !startDevServer_spec, !stopDevServer_spec. cbn. tauto.
Qed.

Lemma devServer_round_trip_witness :
  exec stopDevServer storeWithTerminal =
  (Returned tt, emptyStore, [TerminalDispose; ShowInformationMessage "Dev server stopped"]).
Proof.
  destruct (devServer_round_trip emptyStore eq_refl) as (s1 & Hstart & _ & Hstop & _).
  injection Hstart as <-. exact Hstop.
Defined.

(** X10: [deactivate] disposes the dev server terminal but keeps the
    variable set.  After it, the start command creates nothing and reports
    that the server is already running, and the stop command disposes the
    same terminal a second time. *)
Theorem deactivate_leaves_stale_terminal (s : Store) (t : Terminal) :
  devServerTerminal s = Some t ->
  exists s1 ev1,
    exec deactivate s = (Returned tt, s1, ev1) /\
    In TerminalDispose ev1 /\
    devServerTerminal s1 = Some t /\
    exec startDevServer s1 =
    (Returned tt, s1, [ShowInformationMessage "Dev server is already running"]) /\
    exists s2,
      exec stopDevServer s1 =
      (Returned tt, s2, [TerminalDispose; ShowInformationMessage "Dev server stopped"]) /\
      devServerTerminal s2 = None.
Proof.
  intros Ht.
  destruct (stopLspClient_returns s) as (s1 & ev & Hstop & _ & Hterm & _).
  exists s1. eexists. rewrite deactivate_as_stop, Hstop, Ht.
  split; [reflexivity|]. split; [cbn; tauto|].
  rewrite Ht in Hterm. split; [exact Hterm|].
  rewrite startDevServer_spec, stopDevServer_spec, Hterm.
  split; [reflexivity|]. eexists. split; reflexivity.
Qed.

Lemma deactivate_leaves_stale_terminal_witness :
  exec deactivate storeWithTerminal =
  (Returned tt, storeWithTerminal,
   [ConsoleLog "OxideKit extension deactivating..."; TerminalDispose]) /\
  exec startDevServer storeWithTerminal =
  (Returned tt, storeWithTerminal,
   [ShowInformationMessage "Dev server is already running"]).
Proof.
  destruct (deactivate_leaves_stale_terminal storeWithTerminal
              {| term_name := "OxideKit Dev" |} eq_refl)
    as (s1 & ev1 & Hde & _ & _ & Hstart & _).
  assert (Hs1 : s1 = storeWithTerminal) by (injection Hde as <- _; reflexivity).
  subst s1. split; [reflexivity | exact Hstart].
Defined.

(** ** Terminal bookkeeping along command sequences *)

Create HintDb terminal.

Lemma neutral_ret {A} (a : A) : terminal_neutral (mret a).
Proof. intros s. split; [reflexivity | constructor]. Qed.

Lemma neutral_emit (e : Event) : is_terminal_event e = false -> terminal_neutral (emit e).
Proof. intros He s. split; [reflexivity | repeat constructor; exact He]. Qed.

Lemma neutral_get_client : terminal_neutral get_client.
Proof. intros s. split; [reflexivity | constructor]. Qed.

Lemma neutral_bind {A B} (m : M A) (k : A -> M B) :
  terminal_neutral m -> (forall a, terminal_neutral (k a)) -> terminal_neutral (m ≫= k).
Proof.
  intros Hm Hk s. destruct (Hm s) as [Hs1 Hev1].
  unfold exec, mbind, M_bind in *.
  destruct (m s) as [[[a|e] s1] ev1]; cbn [fst snd] in *; [|tauto].
  destruct (Hk a s1) as [Hs2 Hev2]. unfold exec in *.
  destruct (k a s1) as [[o s2] ev2]. cbn [fst snd] in *.
  split; [congruence | apply Forall_app; tauto].
Qed.

Lemma neutral_set_client (c : option LanguageClient) : terminal_neutral (set_client c).
Proof. intros s. split; [reflexivity | constructor]. Qed.

Lemma neutral_subscriptions_push (ds : list Disposable) :
  terminal_neutral (subscriptions_push ds).
Proof. intros s. split; [reflexivity | constructor]. Qed.

Lemma neutral_client_start (env : Env) : terminal_neutral (client_start env).
Proof.
  intros s. unfold exec, client_start, lc_start.
  destruct (client s) as [c|]; [|split; [reflexivity | constructor]].
  destruct (lc_state c); [destruct (peer_launches env _)| | |];
    (split; [reflexivity | repeat constructor]).
Qed.

Lemma neutral_client_stop : terminal_neutral client_stop.
Proof.
  intros s. unfold exec, client_stop, lc_stop.
  destruct (client s) as [c|]; [|split; [reflexivity | constructor]].
  destruct (lc_state c); (split; [reflexivity | repeat constructor]).
Qed.

Lemma probes_not_terminal (ev : list Event) :
  Forall (fun e => is_probe e = true) ev ->
  Forall (fun e => is_terminal_event e = false) ev.
Proof.
  intros H. eapply Forall_impl; [exact H|].
  intros e He. destruct e; try reflexivity; discriminate.
Qed.

Lemma neutral_resolveServerPath (env : Env) : terminal_neutral (resolveServerPath env).
Proof.
  intros s. destruct (resolveServerPath_probes env s) as (r & ev & -> & Hev).
  split; [reflexivity | apply probes_not_terminal; exact Hev].
Qed.

Lemma neutral_registerCommands : terminal_neutral registerCommands.
Proof.
  intros s. rewrite registerCommands_spec. split; [reflexivity|].
  cbn. repeat constructor.
Qed.

Lemma neutral_registerTreeViews : terminal_neutral registerTreeViews.
Proof. intros s. split; [reflexivity | cbn; repeat constructor]. Qed.

#[local] Hint Resolve neutral_ret neutral_get_client neutral_set_client
  neutral_subscriptions_push neutral_client_start neutral_client_stop
  neutral_resolveServerPath neutral_registerCommands neutral_registerTreeViews
  : terminal.

#[local] Hint Extern 1 (terminal_neutral (emit _)) =>
  apply neutral_emit; reflexivity : terminal.

Ltac neutral_step :=
  first [ solve [auto with terminal]
        | apply neutral_bind; [neutral_step | intros; neutral_step]
        | idtac ].

Lemma neutral_startWith (env : Env) (serverPath : option string) :
  terminal_neutral (startWith env serverPath).
Proof. unfold startWith. destruct (JsString.truthy serverPath); neutral_step. Qed.

#[local] Hint Resolve neutral_startWith : terminal.

Lemma neutral_activate (env : Env) : terminal_neutral (activate env).
Proof. unfold activate, startLspClient. neutral_step. Qed.

Lemma neutral_restartLsp (env : Env) : terminal_neutral (restartLsp env).
Proof. unfold restartLsp. neutral_step. destruct a; neutral_step. Qed.

Lemma count_events_app (f : Event -> bool) (a b : list Event) :
  count_events f (a ++ b) = count_events f a + count_events f b.
Proof. unfold count_events. rewrite List.filter_app, length_app. reflexivity. Qed.

Lemma count_events_none (f : Event -> bool) (ev : list Event) :
  Forall (fun e => f e = false) ev -> count_events f ev = 0.
Proof.
  unfold count_events. induction 1 as [|e l He _ IH]; [reflexivity|].
  cbn. rewrite He. exact IH.
Qed.

Lemma neutral_counts {A} (m : M A) (s : Store) :
  terminal_neutral m ->
  terminalHeld (snd (fst (exec m s))) = terminalHeld s /\
  count_events is_create_terminal (snd (exec m s)) = 0 /\
  count_events is_dispose_terminal (snd (exec m s)) = 0.
Proof.
  intros Hm. destruct (Hm s) as [Hs Hev]. unfold terminalHeld. rewrite Hs.
  split; [reflexivity|].
  split; apply count_events_none; (eapply Forall_impl; [exact Hev|]);
    intros e He; destruct e; try reflexivity; discriminate.
Qed.

Lemma handler_balance (env : Env) (c : Command) (s : Store) :
  c <> Deactivate ->
  terminalHeld s + count_events is_create_terminal (snd (exec (handler env c) s)) =
  count_events is_dispose_terminal (snd (exec (handler env c) s))
  + terminalHeld (snd (fst (exec (handler env c) s))).
Proof.
  intros Hc. destruct c; cbn [handler]; try congruence.
  - destruct (neutral_counts (activate env) s (neutral_activate env)) as (-> & -> & ->). lia.
  - destruct (neutral_counts (restartLsp env) s (neutral_restartLsp env)) as (-> & -> & ->). lia.
  - rewrite startDevServer_spec. unfold terminalHeld.
    destruct (devServerTerminal s) eqn:Ht; cbn; rewrite ?Ht; reflexivity.
  - rewrite stopDevServer_spec. unfold terminalHeld.
    destruct (devServerTerminal s) eqn:Ht; cbn; rewrite ?Ht; reflexivity.
Qed.

(** X11: as long as [deactivate] is not among them, any sequence of
    activations and commands keeps the books on terminals: the terminals
    created, plus the one held at the start, are the terminals disposed plus
    the one held at the end.  So at most one dev server terminal is alive
    and the variable says whether it is. *)
Theorem terminal_balance (env : Env) (cmds : list Command) (s : Store) :
  Forall (fun c => c <> Deactivate) cmds ->
  terminalHeld s + count_events is_create_terminal (snd (runCommands env cmds s)) =
  count_events is_dispose_terminal (snd (runCommands env cmds s))
  + terminalHeld (fst (runCommands env cmds s)).
Proof.
  intros Hall. revert s. induction Hall as [|c rest Hc _ IH]; intros s.
  - cbn. lia.
  - cbn [runCommands]. pose proof (handler_balance env c s Hc) as Hstep.
    destruct (exec (handler env c) s) as [[o s1] ev1]. cbn [fst snd] in Hstep.
    specialize (IH s1). destruct (runCommands env rest s1) as [s2 ev2].
    cbn [fst snd] in *. rewrite !count_events_app. lia.
Qed.

Lemma terminal_balance_witness :
  terminalHeld emptyStore
  + count_events is_create_terminal
      (snd (runCommands hostNothing
              [StartDevServer; StartDevServer; StopDevServer; Activate; StartDevServer]
              emptyStore)) =
  count_events is_dispose_terminal
    (snd (runCommands hostNothing
            [StartDevServer; StartDevServer; StopDevServer; Activate; StartDevServer]
            emptyStore))
  + terminalHeld
      (fst (runCommands hostNothing
              [StartDevServer; StartDevServer; StopDevServer; Activate; StartDevServer]
              emptyStore)).
Proof.
  apply (terminal_balance hostNothing
           [StartDevServer; StartDevServer; StopDevServer; Activate; StartDevServer]
           emptyStore).
  repeat constructor; discriminate.
Defined.

(** X12: the dev server commands and the language server commands do not
    interfere: starting or stopping the dev server leaves [client] and the
    subscriptions alone and makes no call on the client, and restarting the
    language server leaves the terminal and the subscriptions alone. *)
Theorem commands_do_not_interfere (env : Env) (s : Store) :
  (client (snd (fst (exec startDevServer s))) = client s /\
   subscriptions (snd (fst (exec startDevServer s))) = subscriptions s /\
   Forall (fun e => is_client_event e = false) (snd (exec startDevServer s))) /\
  (client (snd (fst (exec stopDevServer s))) = client s /\
   subscriptions (snd (fst (exec stopDevServer s))) = subscriptions s /\
   Forall (fun e => is_client_event e = false) (snd (exec stopDevServer s))) /\
  devServerTerminal (snd (fst (exec (restartLsp env) s))) = devServerTerminal s /\
  subscriptions (snd (fst (exec (restartLsp env) s))) = subscriptions s /\
  Forall (fun e => is_terminal_event e = false) (snd (exec (restartLsp env) s)).
Proof.
  split; [|split].
  - rewrite startDevServer_spec.
    destruct (devServerTerminal s); cbn; repeat split; repeat constructor.
  - rewrite stopDevServer_spec.
    destruct (devServerTerminal s); cbn; repeat split; repeat constructor.
  - destruct (neutral_restartLsp env s) as [Ht Hev].
    split; [exact Ht|]. split; [|exact Hev].
    destruct s as [[c|] t subs]; [|reflexivity].
    unfold restartLsp, exec, mbind, M_bind, get_client, client_stop, client_start,
      emit, lc_stop, lc_start.
    destruct c as [? ? ? ? []]; cbn; try destruct (peer_launches env _); reflexivity.
Qed.

(** * Commands on the editor *)

Lemma split_join_lines (l : string) (rest : list string) :
  Forall (fun x => JsLines.has_LF x = false) (l :: rest) ->
  JsLines.split_lines (JsLines.join JsLines.nl (l :: rest)) = l :: rest.
Proof.
  revert l. induction rest as [|l' rest IH]; intros l Hall.
  - inversion Hall; subst. apply split_lines_one. assumption.
  - inversion Hall as [|? ? Hl Hrest]; subst.
    rewrite join_cons2.
    change (JsLines.nl +:+ JsLines.join JsLines.nl (l' :: rest))
      with (String JsString.LF (JsLines.join JsLines.nl (l' :: rest))).
    rewrite split_lines_app, (IH l' Hrest), (split_lines_one l Hl). reflexivity.
Qed.

Lemma truthy_idempotent (v : option string) (n : string) :
  JsString.truthy v = Some n -> JsString.truthy (Some n) = Some n.
Proof. destruct v as [[|c s]|]; cbn; intros [= <-]; reflexivity. Qed.

(** X13: [addPlugin] and [newPlugin] do nothing beyond the prompt when the
    user dismisses it or enters nothing; otherwise each opens one new
    terminal and sends the command with the name exactly as typed. *)
Theorem plugin_commands (host : UiHost) :
  (JsString.truthy (inputBoxAnswer host) = None ->
   addPlugin host =
   (Done tt, [UiShowInputBox "Enter plugin name to add" "e.g., @oxidekit/charts"]) /\
   newPlugin host =
   (Done tt, [UiShowInputBox "Enter name for new plugin" "e.g., my-custom-components"])) /\
  (forall name,
     JsString.truthy (inputBoxAnswer host) = Some name ->
     addPlugin host =
     (Done tt,
      [ UiShowInputBox "Enter plugin name to add" "e.g., @oxidekit/charts";
        UiCreateTerminal "OxideKit"; UiTerminalShow;
        UiTerminalSendText ("oxide add " +:+ name) ]) /\
     newPlugin host =
     (Done tt,
      [ UiShowInputBox "Enter name for new plugin" "e.g., my-custom-components";
        UiCreateTerminal "OxideKit"; UiTerminalShow;
        UiTerminalSendText ("oxide plugin new " +:+ name) ])).
Proof.
  unfold addPlugin, newPlugin, showInputBox, inNewTerminal, mbind, Ui_bind, act, mret,
    Ui_ret.
  split.
  - intros ->. split; reflexivity.
  - intros name ->. split; reflexivity.
Qed.

Lemma plugin_commands_witness :
  addPlugin uiHostIdle =
  (Done tt, [UiShowInputBox "Enter plugin name to add" "e.g., @oxidekit/charts"]) /\
  addPlugin uiHostOui =
  (Done tt,
   [ UiShowInputBox "Enter plugin name to add" "e.g., @oxidekit/charts";
     UiCreateTerminal "OxideKit"; UiTerminalShow;
     UiTerminalSendText "oxide add Card" ]).
Proof.
  split.
  - apply (proj1 (plugin_commands uiHostIdle)). reflexivity.
  - apply (proj2 (plugin_commands uiHostOui) "Card"). reflexivity.
Defined.

Lemma createComponent_spec (env : Env) (host : UiHost) (componentName : option string) :
  createComponent env host componentName =
  match chosenName host componentName with
  | None => (Done tt, componentPrompt componentName)
  | Some name =>
      match workspaceFolders env with
      | None =>
          (Done tt,
           componentPrompt componentName ++ [UiShowErrorMessage "No workspace folder open"])
      | Some [] =>
          (Raised (UiTypeError "Cannot read properties of undefined (reading 'uri')"),
           componentPrompt componentName)
      | Some (root :: _) =>
          let p := componentPathFor env root name in
          if writeFile_ok host p
          then (if showTextDocument_ok host p then Done tt else Raised (OpenFailed p),
                componentPrompt componentName
                ++ [UiWriteFile p (componentContent name); UiShowTextDocument p])
          else (Raised (WriteFailed p),
                componentPrompt componentName ++ [UiWriteFile p (componentContent name)])
      end
  end.
Proof.
  unfold createComponent, chosenName, componentPrompt, showInputBox, mbind, Ui_bind,
    act, mret, Ui_ret, raise, writeFile, showTextDocument.
  destruct (JsString.truthy componentName) as [n|] eqn:Hn.
  - rewrite (truthy_idempotent _ _ Hn).
    destruct (workspaceFolders env) as [[|root rest]|]; try reflexivity.
    cbn zeta. destruct (writeFile_ok host _); [|reflexivity].
    destruct (showTextDocument_ok host _); reflexivity.
  - destruct (JsString.truthy (inputBoxAnswer host)) as [n|]; [|reflexivity].
    destruct (workspaceFolders env) as [[|root rest]|]; try reflexivity.
    cbn zeta. destruct (writeFile_ok host _); [|reflexivity].
    destruct (showTextDocument_ok host _); reflexivity.
Qed.

Lemma componentPrompt_no_write (componentName : option string) :
  Forall (fun a => is_write a = false) (componentPrompt componentName).
Proof.
  unfold componentPrompt. destruct (JsString.truthy componentName); repeat constructor.
Qed.

(** X14: [createComponent] writes nothing unless it has a name and a first
    workspace folder.  Without a name it returns after the prompt; with no
    workspace it ends in the error message; with an empty folder list it
    throws a [TypeError]; in all three cases no file is written and no
    document is opened. *)
Theorem createComponent_guards (env : Env) (host : UiHost) (componentName : option string) :
  chosenName host componentName = None \/
  workspaceFolders env = None \/
  workspaceFolders env = Some [] ->
  Forall (fun a => is_write a = false) (snd (createComponent env host componentName)) /\
  (chosenName host componentName = None ->
   createComponent env host componentName = (Done tt, componentPrompt componentName)) /\
  (chosenName host componentName <> None ->
   workspaceFolders env = None ->
   createComponent env host componentName =
   (Done tt,
    componentPrompt componentName ++ [UiShowErrorMessage "No workspace folder open"])) /\
  (chosenName host componentName <> None ->
   workspaceFolders env = Some [] ->
   exists msg,
     createComponent env host componentName =
     (Raised (UiTypeError msg), componentPrompt componentName)).
Proof.
  intros Hcase. rewrite createComponent_spec.
  pose proof (componentPrompt_no_write componentName) as Hprompt.
  repeat split.
  - destruct (chosenName host componentName) as [name|]; [|exact Hprompt].
    destruct Hcase as [Hc | [-> | ->]]; [discriminate | |]; cbn [snd].
    + apply Forall_app. split; [exact Hprompt | repeat constructor].
    + exact Hprompt.
  - intros ->. reflexivity.
  - intros Hname ->. destruct (chosenName host componentName); [reflexivity | congruence].
  - intros Hname ->. destruct (chosenName host componentName); [eauto | congruence].
Qed.

Lemma createComponent_guards_witness :
  createComponent hostWindows uiHostOui None =
  (Done tt,
   [ UiShowInputBox "Enter component name" "e.g., MyButton";
     UiShowErrorMessage "No workspace folder open" ]).
Proof.
  destruct (createComponent_guards hostWindows uiHostOui None (or_intror (or_introl eq_refl)))
    as (_ & _ & Hnone & _).
  apply Hnone; [discriminate | reflexivity].
Defined.

(** X15: with a name and a workspace, [createComponent] writes the template
    to [<first folder>/src/components/<name>.oui], whatever the other
    folders are and without looking whether the file exists, and then opens
    that file; a truthy argument is taken as the name without prompting.
    When the write fails, nothing is opened. *)
Theorem createComponent_writes (env : Env) (host : UiHost) (componentName : option string)
    (name root : string) (rest : list string) :
  chosenName host componentName = Some name ->
  workspaceFolders env = Some (root :: rest) ->
  let p := path_join env [path_join env [root; "src"; "components"]; name +:+ ".oui"] in
  (writeFile_ok host p = true ->
   snd (createComponent env host componentName) =
   componentPrompt componentName
   ++ [UiWriteFile p (componentContent name); UiShowTextDocument p] /\
   (showTextDocument_ok host p = true ->
    fst (createComponent env host componentName) = Done tt)) /\
  (writeFile_ok host p = false ->
   createComponent env host componentName =
   (Raised (WriteFailed p),
    componentPrompt componentName ++ [UiWriteFile p (componentContent name)])) /\
  (forall n, JsString.truthy componentName = Some n ->
             n = name /\ componentPrompt componentName = []).
Proof.
  intros Hname Hroots p. rewrite createComponent_spec, Hname, Hroots.
  change (componentPathFor env root name) with p. cbn zeta.
  split; [|split].
  - intros ->. split; [reflexivity|]. intros ->. reflexivity.
  - intros ->. reflexivity.
  - intros n Hn. split.
    + unfold chosenName in Hname. rewrite Hn in Hname. congruence.
    + unfold componentPrompt. rewrite Hn. reflexivity.
Qed.

Lemma createComponent_writes_witness :
  createComponent hostDebugOnly uiHostIdle (Some "Card") =
  (Done tt,
   [ UiWriteFile "/proj/src/components/Card.oui" (componentContent "Card");
     UiShowTextDocument "/proj/src/components/Card.oui" ]).
Proof.
  destruct (createComponent_writes hostDebugOnly uiHostIdle (Some "Card") "Card" "/proj" []
              eq_refl eq_refl) as (Hok & _ & _).
  destruct (Hok eq_refl) as [Hacts Hdone].
  specialize (Hdone eq_refl).
  destruct (createComponent hostDebugOnly uiHostIdle (Some "Card")) as [o acts].
  cbn [fst snd] in *. subst o acts. reflexivity.
Defined.

(** X16: for a name without a line feed the generated file has these eleven
    lines and ends with a line feed; the name appears in the comment, in the
    [app] declaration and in the text. *)
Theorem componentContent_lines (name : string) :
  JsLines.has_LF name = false ->
  JsLines.split_lines (componentContent name) =
  [ "// " +:+ name +:+ " component";
    "app " +:+ name +:+ " {";
    "    Column {";
    "        align: center";
    "        justify: center";
    "";
    "        Text {";
    "            content: " +:+ JsLines.dquote +:+ name +:+ " component" +:+ JsLines.dquote;
    "        }";
    "    }";
    "}";
    "" ].
Proof.
  intros Hname. unfold componentContent. apply split_join_lines.
  repeat constructor; rewrite ?has_LF_app, ?Hname; reflexivity.
Qed.

Lemma componentContent_lines_witness :
  List.length (JsLines.split_lines (componentContent "Card")) = 12 /\
  hd "" (JsLines.split_lines (componentContent "Card")) = "// Card component".
Proof.
  rewrite (componentContent_lines "Card" eq_refl). split; reflexivity.
Defined.

(** X17: [extractComponent] never changes anything: in every case it returns
    normally having shown at most the prompt and one message, and it makes
    no edit and writes no file. *)
Theorem extractComponent_never_edits (host : UiHost) :
  fst (extractComponent host) = Done tt /\
  Forall (fun a => is_write a = false) (snd (extractComponent host)) /\
  List.length (snd (extractComponent host)) <= 2.
Proof.
  unfold extractComponent, showInputBox, mbind, Ui_bind, act, mret, Ui_ret.
  destruct (activeTextEditor host) as [editor|]; [|cbn; repeat split; [constructor | lia]].
  destruct (selection_isEmpty editor);
    [cbn; repeat split; [repeat constructor | lia]|].
  destruct (JsString.truthy (inputBoxAnswer host)); cbn;
    (repeat split; [repeat constructor | lia]).
Qed.

(** X18: [wrapWith] edits only an [.oui] document: with no editor, or an
    editor on another language, it does nothing at all. *)
Theorem wrapWith_only_oui (host : UiHost) (wrapper : string) :
  (activeTextEditor host = None \/
   exists editor, activeTextEditor host = Some editor /\ languageId editor <> "oui") ->
  wrapWith host wrapper = (Done tt, []).
Proof.
  unfold wrapWith. intros [-> | (editor & -> & Hlang)]; [reflexivity|].
  apply String.eqb_neq in Hlang. rewrite Hlang. reflexivity.
Qed.

Lemma wrapWith_only_oui_witness : wrapWith uiHostIdle "Column" = (Done tt, []).
Proof. apply (wrapWith_only_oui uiHostIdle "Column"). left. reflexivity. Defined.

(** X19: on an [.oui] document [wrapWith] replaces the selection by one
    text whose lines are the header [<wrapper> {], every line of the
    selection indented by four spaces, and the closing brace: two lines more
    than the selection had.  An empty selection gives a block with one blank
    indented line. *)
Theorem wrapWith_lines (host : UiHost) (editor : TextEditor) (wrapper : string) :
  activeTextEditor host = Some editor ->
  languageId editor = "oui" ->
  JsLines.has_LF wrapper = false ->
  exists text,
    wrapWith host wrapper = (Done tt, [UiReplaceSelection text]) /\
    JsLines.split_lines text =
    (wrapper +:+ " {")
    :: map (String.append "    ") (JsLines.split_lines (selectedText editor))
    ++ ["}"] /\
    List.length (JsLines.split_lines text) =
    List.length (JsLines.split_lines (selectedText editor)) + 2.
Proof.
  intros Hed Hlang Hw. exists (wrapped wrapper (selectedText editor)).
  assert (Hlines :
    JsLines.split_lines (wrapped wrapper (selectedText editor)) =
    (wrapper +:+ " {")
    :: map (String.append "    ") (JsLines.split_lines (selectedText editor)) ++ ["}"]).
  { unfold wrapped.
    change (JsLines.nl +:+ "    "
            +:+ JsLines.join (JsLines.nl +:+ "    ")
                  (JsLines.split_lines (selectedText editor))
            +:+ JsLines.nl +:+ "}")
      with (String JsString.LF
              ("    " +:+ JsLines.join (JsLines.nl +:+ "    ")
                          (JsLines.split_lines (selectedText editor))
               +:+ String JsString.LF "}")).
    rewrite <- (append_assoc wrapper), split_lines_app.
    rewrite <- (append_assoc "    "), split_lines_app.
    rewrite split_lines_one by (rewrite has_LF_app, Hw; reflexivity).
    pose proof (split_lines_no_LF (selectedText editor)) as Hall.
    pose proof (split_lines_nonempty (selectedText editor)) as Hne.
    destruct (JsLines.split_lines (selectedText editor)) as [|l rest]; [congruence|].
    rewrite (split_indented_join "    " l rest eq_refl Hall). reflexivity. }
  split; [|split; [exact Hlines|]].
  - unfold wrapWith. rewrite Hed, Hlang. reflexivity.
  - rewrite Hlines. cbn [List.length]. rewrite length_app, length_map.
    cbn [List.length]. lia.
Qed.

Lemma wrapWith_lines_witness :
  exists text,
    wrapWith uiHostOui "Column" = (Done tt, [UiReplaceSelection text]) /\
    JsLines.split_lines text = ["Column {"; "    Text {"; "      x"; "    }"; "}"].
Proof.
  destruct (wrapWith_lines uiHostOui
              {| languageId := "oui";
                 selectedText := "Text {" +:+ JsLines.nl +:+ "  x" +:+ JsLines.nl +:+ "}" |}
              "Column" eq_refl eq_refl eq_refl) as (text & Hrun & Hlines & _).
  exists text. split; [exact Hrun | exact Hlines].
Defined.

(** * Tree views *)

Lemma pow3_step (n : nat) : 3 ^ (S n) = 3 * 3 ^ n.
Proof. reflexivity. Qed.

Lemma tokens_level_collapsed (n : nat) :
  Forall (fun item => expandable item = true) (treeLevel TokensTreeProvider n) /\
  List.length (treeLevel TokensTreeProvider n) = 3 ^ (S n).
Proof.
  induction n as [|n [IHx IHl]]; [split; [repeat constructor | reflexivity]|].
  cbn [treeLevel]. revert IHx IHl. generalize (treeLevel TokensTreeProvider n) as l.
  intros l Hx Hl. rewrite (pow3_step (S n)), <- Hl. clear Hl.
  induction Hx as [|item l Hitem _ [IH1 IH2]]; [split; [constructor | reflexivity]|].
  cbn [flat_map]. rewrite Hitem. split.
  - apply Forall_app. split; [repeat constructor | exact IH1].
  - rewrite length_app, IH2.
    change (List.length (getChildren TokensTreeProvider (Some item))) with 3.
    cbn [List.length]. lia.
Qed.

Lemma i18n_level_empty (n : nat) : treeLevel I18nTreeProvider (S n) = [].
Proof.
  induction n as [|n IH]; [reflexivity|].
  change (treeLevel I18nTreeProvider (S (S n)))
    with (flat_map (fun item => if expandable item
                                then getChildren I18nTreeProvider (Some item) else [])
                   (treeLevel I18nTreeProvider (S n))).
  rewrite IH. reflexivity.
Qed.

(** X20: every provider ignores the element it is asked about, so an item
    that can be expanded shows the root items again.  The components tree
    has one [Built-in] item at every depth, the tokens tree has [3^(n+1)]
    items at depth [n], all of them expandable, so neither ever ends; the
    i18n tree is one leaf. *)
Theorem tree_views_repeat_the_roots (n : nat) :
  treeLevel ComponentsTreeProvider n = [ComponentItem "Built-in" Collapsed] /\
  List.length (treeLevel TokensTreeProvider n) = 3 ^ (S n) /\
  Forall (fun item => expandable item = true) (treeLevel TokensTreeProvider n) /\
  treeLevel I18nTreeProvider 0 = [I18nItem "en (English)" CollapsibleNone] /\
  treeLevel I18nTreeProvider (S n) = [].
Proof.
  split; [induction n as [|n IH]; [reflexivity | cbn [treeLevel]; rewrite IH; reflexivity]|].
  destruct (tokens_level_collapsed n) as [Hx Hl].
  split; [exact Hl|]. split; [exact Hx|]. split; [reflexivity|].
  apply i18n_level_empty.
Qed.
